(** * vtkdiff: numerical comparison of two data arrays

    A shallow embedding of [vtkdiff.cpp] (OpenGeoSys) and the proofs of its
    error-norm computation and of its pass/fail decision.

    The program reads two data arrays, scans them tuple by tuple and
    component by component, accumulates the l1, squared l2 and maximum norms
    of the absolute and of the relative error per component, prints them,
    and fails when the maximum norms of both errors exceed their thresholds.

    - [double] is IEEE 754 binary64 as specified by the Standard Library's
      [SpecFloat] (one NaN, no payload), with its operations rounding to
      nearest even; nothing is idealised to real numbers. An array may hold
      any double, infinities and NaN included.
    - [vtkDataArray] is the interface of VTK's class as far as [main] uses it.
    - The streams [std::cout] and [std::cerr] are lists of output statements,
      each a list of the values sent with [<<]; width and precision
      manipulators only change the layout and are left out, and string
      literals are kept as the source writes them, escapes included.
    - A run that reaches undefined behaviour ends as [Undefined]: the
      decision on vectors without components, and the overflow of the [int]
      tuple counter on arrays of more than [INT_MAX] tuples. Of such a run
      the model keeps what was computed and sent to the streams up to that
      point. *)

From Stdlib Require Import ZArith Lia Floats.SpecFloat.
From stdpp Require Import list strings.

Local Open Scope string_scope.
Local Open Scope list_scope.

(** ** Binary64 arithmetic *)

Module Double.

Definition prec : Z := 53.
Definition emax : Z := 1024.

Definition double : Type := spec_float.

Definition zero : double := S754_zero false.
Definition infinity : double := S754_infinity false.

Definition add : double -> double -> double := SFadd prec emax.
Definition sub : double -> double -> double := SFsub prec emax.
Definition mul : double -> double -> double := SFmul prec emax.
Definition div : double -> double -> double := SFdiv prec emax.
Definition sqrt : double -> double := SFsqrt prec emax.

(** [std::abs] on a double clears the sign. *)
Definition abs : double -> double := SFabs.

(** The comparison operators [==], [<] and [>]; all are false on NaN. *)
Definition eqb : double -> double -> bool := SFeqb.
Definition ltb : double -> double -> bool := SFltb.
Definition gtb (x y : double) : bool := SFltb y x.
Definition leb : double -> double -> bool := SFleb.

(** [std::max(x, y)] is [(x < y) ? y : x] and [std::min(x, y)] is
    [(y < x) ? y : x]. *)
Definition max (x y : double) : double := if ltb x y then y else x.
Definition min (x y : double) : double := if ltb y x then y else x.

(** The double nearest to [m * 2^e]; exact for the small integers used
    in the examples. *)
Definition of_Z2 (m e : Z) : double := binary_normalize prec emax m e false.
Definition of_Z (m : Z) : double := of_Z2 m 0.

(** A value that is neither an infinity nor NaN. *)
Definition is_finite (x : double) : bool :=
  match x with
  | S754_zero _ | S754_finite _ _ _ => true
  | S754_infinity _ | S754_nan => false
  end.

End Double.

Import Double.

(** ** The command line and the arrays *)

Record Args := {
  quiet : bool;
  verbose : bool;
  abs_err_thr : double;
  rel_err_thr : double;
  vtk_input_a : string;
  vtk_input_b : string;
  data_array_a : string;
  data_array_b : string
}.

(** The members of [vtkDataArray] that [main] calls. Tuple and component
    counts are never negative. VTK counts tuples in [vtkIdType], which is
    wider than the [int] counter of the loop of [main]: a tuple count may
    be beyond [INT_MAX], and [main] says what happens then. *)
Record vtkDataArray := {
  IsNumeric : bool;
  GetDataTypeAsString : string;
  GetNumberOfTuples : nat;
  GetNumberOfComponents : nat;
  GetComponent : nat -> nat -> double
}.

(** An array given by its rows, for the examples. *)
Definition array_of_rows (num_components : nat) (rows : list (list double))
  : vtkDataArray :=
  {| IsNumeric := true;
     GetDataTypeAsString := "double";
     GetNumberOfTuples := length rows;
     GetNumberOfComponents := num_components;
     GetComponent t c := nth c (nth t rows []) zero |}.

Definition stringEndsWith (str ending : string) : bool :=
  if (String.length str <? String.length ending)%nat then false
  else
    let string_end_length := (String.length str - String.length ending)%nat in
    String.eqb
      (String.substring string_end_length (String.length ending) str) ending.

(** ** Output *)

Inductive token :=
| Str (s : string)
| Num (n : nat)
| Flt (x : double)
| Vec (v : list double).

(** One output statement. *)
Definition line : Type := list token.

Inductive exit_code := EXIT_SUCCESS | EXIT_FAILURE.

(** How a run ends: [main] returns, or its behaviour is undefined: it
    dereferences the end iterator that [std::max_element] returns on an
    empty range, or the [int] counter of its loop over the tuples
    overflows. *)
Inductive outcome :=
| Returned (code : exit_code)
| Undefined.

(** ** The error norms *)

Record Norms := {
  abs_err_norm_l1 : list double;
  abs_err_norm_2_2 : list double;
  abs_err_norm_max : list double;
  rel_err_norm_l1 : list double;
  rel_err_norm_2_2 : list double;
  rel_err_norm_max : list double
}.

(** [std::vector<double> v(num_components)] holds zeros. *)
Definition initial_norms (num_components : nat) : Norms :=
  {| abs_err_norm_l1 := replicate num_components zero;
     abs_err_norm_2_2 := replicate num_components zero;
     abs_err_norm_max := replicate num_components zero;
     rel_err_norm_l1 := replicate num_components zero;
     rel_err_norm_2_2 := replicate num_components zero;
     rel_err_norm_max := replicate num_components zero |}.

Definition absolute_error (a_comp b_comp : double) : double :=
  abs (sub a_comp b_comp).

Definition relative_error (a_comp b_comp : double) : double :=
  let abs_err := absolute_error a_comp b_comp in
  if eqb abs_err zero then zero
  else if eqb a_comp zero || eqb b_comp zero then infinity
  else div abs_err (min (abs a_comp) (abs b_comp)).

(** The state of the scan: the six vectors and what was printed so far. *)
Record ScanState := {
  norms : Norms;
  printed : list line
}.

Definition diagnostic (tuple_idx component_idx : nat) (abs_err rel_err : double)
  : line :=
  [Str "tuple: "; Num tuple_idx; Str "component: "; Num component_idx;
   Str ": abs err = "; Flt abs_err; Str ", rel err = "; Flt rel_err; Str "\n"].

(** The body of the inner loop. An index into a vector is below its
    length, which is [num_components] throughout ([scan_point_sized]). *)
Definition loop_body (args : Args) (a b : vtkDataArray)
    (tuple_idx component_idx : nat) (st : ScanState) : ScanState :=
  let a_comp := GetComponent a tuple_idx component_idx in
  let b_comp := GetComponent b tuple_idx component_idx in
  let abs_err := absolute_error a_comp b_comp in
  let rel_err := relative_error a_comp b_comp in
  let n := norms st in
  let n' :=
    {| abs_err_norm_l1 :=
         alter (fun x => add x abs_err) component_idx (abs_err_norm_l1 n);
       abs_err_norm_2_2 :=
         alter (fun x => add x (mul abs_err abs_err)) component_idx
               (abs_err_norm_2_2 n);
       abs_err_norm_max :=
         alter (fun x => max x abs_err) component_idx (abs_err_norm_max n);
       rel_err_norm_l1 :=
         alter (fun x => add x rel_err) component_idx (rel_err_norm_l1 n);
       rel_err_norm_2_2 :=
         alter (fun x => add x (mul rel_err rel_err)) component_idx
               (rel_err_norm_2_2 n);
       rel_err_norm_max :=
         alter (fun x => max x rel_err) component_idx (rel_err_norm_max n) |} in
  {| norms := n';
     printed :=
       if gtb abs_err (abs_err_thr args) && gtb rel_err (rel_err_thr args)
          && verbose args
       then printed st ++ [diagnostic tuple_idx component_idx abs_err rel_err]
       else printed st |}.

(** The largest [int]: the counter of the loop over the tuples is declared
    with [auto tuple_idx = 0]. *)
Definition INT_MAX : Z := 2147483647.

(** With more than [INT_MAX] tuples the counter reaches [INT_MAX], the
    tuple of that index is still scanned, and [++tuple_idx] overflows. *)
Definition counter_overflows (num_tuples : nat) : bool :=
  (INT_MAX <? Z.of_nat num_tuples)%Z.

Definition tuples_scanned (num_tuples : nat) : nat :=
  if counter_overflows num_tuples then Z.to_nat (INT_MAX + 1)
  else num_tuples.

Arguments tuples_scanned : simpl never.

(** The two nested loops, tuples outside and components inside, for the
    tuples below [num_tuples]; [main] runs them for the tuples that are
    scanned before the counter overflows. *)
Definition scan_tuple (args : Args) (a b : vtkDataArray)
    (num_components : nat) (st : ScanState) (tuple_idx : nat) : ScanState :=
  fold_left
    (fun st component_idx => loop_body args a b tuple_idx component_idx st)
    (seq 0 num_components) st.

Definition scan (args : Args) (a b : vtkDataArray)
    (num_tuples num_components : nat) (st : ScanState) : ScanState :=
  fold_left (scan_tuple args a b num_components) (seq 0 num_tuples) st.

(** ** The report and the decision *)

Definition report (n : Norms) : list line :=
  let abs_err_norm_2 := map sqrt (abs_err_norm_2_2 n) in
  let rel_err_norm_2 := map sqrt (rel_err_norm_2_2 n) in
  [ [Str "Computed difference between data arrays:\n"];
    [Str "abs l1 norm      = "; Vec (abs_err_norm_l1 n); Str "\n"];
    [Str "abs l2-norm^2    = "; Vec (abs_err_norm_2_2 n); Str "\n"];
    [Str "abs l2-norm      = "; Vec abs_err_norm_2; Str "\n"];
    [Str "abs maximum norm = "; Vec (abs_err_norm_max n); Str "\n"];
    [Str "\n"];
    [Str "rel l1 norm      = "; Vec (rel_err_norm_l1 n); Str "\n"];
    [Str "rel l2-norm^2    = "; Vec (rel_err_norm_2_2 n); Str "\n"];
    [Str "rel l2-norm      = "; Vec (rel_err_norm_2_2 n); Str "\n"];
    [Str "rel maximum norm = "; Vec (rel_err_norm_max n); Str "\n"] ].

(** [std::max_element]: the first element that no later one exceeds, or
    the end iterator ([None]) on an empty range. *)
Definition max_element (v : list double) : option double :=
  match v with
  | [] => None
  | first :: rest =>
      Some (fold_left (fun largest x => if ltb largest x then x else largest)
                      rest first)
  end.

(** What a run leaves behind: how it ended, both streams, and the six
    vectors once they were created, as they are when the run ends. For a
    run that ends as [Undefined] these are the values reached before the
    undefined operation. *)
Record Run := {
  status : outcome;
  cout : list line;
  cerr : list line;
  final_norms : option Norms
}.

Definition failure_message : line :=
  [Str ("Absolute and relative error (maximum norm) are larger"
        ++ " than the corresponding thresholds.\n")%string].

(** The last statement of [main]: the second operand of [&&] is only
    evaluated when the first holds. *)
Definition decide_exit (args : Args) (n : Norms) (out : list line)
  : outcome * list line :=
  match max_element (abs_err_norm_max n) with
  | None => (Undefined, out)
  | Some m_abs =>
      if gtb m_abs (abs_err_thr args) then
        match max_element (rel_err_norm_max n) with
        | None => (Undefined, out)
        | Some m_rel =>
            if gtb m_rel (rel_err_thr args) then
              (Returned EXIT_FAILURE,
               if quiet args then out else out ++ [failure_message])
            else (Returned EXIT_SUCCESS, out)
        end
      else (Returned EXIT_SUCCESS, out)
  end.

(** [main], from the result of [readDataArraysFromFile] on: [None] is an
    unsuccessful read, whose messages the reader wrote itself. *)
Definition main (args : Args) (read : option (vtkDataArray * vtkDataArray))
  : Run :=
  if negb (stringEndsWith (vtk_input_a args) ".vtu") then
    {| status := Returned EXIT_FAILURE;
       cout := [];
       cerr := [[Str "Invalid file type! Only .vtu files are supported.\n"]];
       final_norms := None |}
  else
    match read with
    | None =>
        {| status := Returned EXIT_FAILURE; cout := []; cerr := [];
           final_norms := None |}
    | Some (a, b) =>
        let out :=
          if quiet args then []
          else [[Str "Comparing data array `"; Str (data_array_a args);
                 Str "' from file `"; Str (vtk_input_a args);
                 Str "' to data array `"; Str (data_array_b args);
                 Str "' from file `"; Str (vtk_input_b args); Str "'.\n"]] in
        if negb (IsNumeric a) then
          {| status := Returned EXIT_FAILURE;
             cout := out;
             cerr := [[Str "Data in data array a is not numeric:\n";
                       Str "data type is "; Str (GetDataTypeAsString a);
                       Str "\n"]];
             final_norms := None |}
        else if negb (IsNumeric b) then
          {| status := Returned EXIT_FAILURE;
             cout := out;
             cerr := [[Str "Data in data array b is not numeric.\n";
                       Str "data type is "; Str (GetDataTypeAsString b);
                       Str "\n"]];
             final_norms := None |}
        else
          let num_tuples := GetNumberOfTuples a in
          if negb (num_tuples =? GetNumberOfTuples b)%nat then
            {| status := Returned EXIT_FAILURE;
               cout := out;
               cerr := [[Str "Number of tuples differ:\n"; Num num_tuples;
                         Str " in data array a and ";
                         Num (GetNumberOfTuples b);
                         Str " in data array b\n"]];
               final_norms := None |}
          else
            let num_components := GetNumberOfComponents a in
            if negb (num_components =? GetNumberOfComponents b)%nat then
              {| status := Returned EXIT_FAILURE;
                 cout := out;
                 cerr := [[Str "Number of components differ:\n";
                           Num num_components; Str " in data array a and ";
                           Num (GetNumberOfComponents b);
                           Str " in data array b\n"]];
                 final_norms := None |}
            else
              let st :=
                scan args a b (tuples_scanned num_tuples) num_components
                     {| norms := initial_norms num_components;
                        printed := out |} in
              if counter_overflows num_tuples then
                {| status := Undefined;
                   cout := printed st;
                   cerr := [];
                   final_norms := Some (norms st) |}
              else
                let out :=
                  if quiet args then printed st
                  else printed st ++ report (norms st) in
                let '(result, out) := decide_exit args (norms st) out in
                {| status := result;
                   cout := out;
                   cerr := [];
                   final_norms := Some (norms st) |}
    end.

(** ** Notions used to state the properties *)

(** [x] is not NaN and its sign bit is [s]. *)
Definition signed_as (s : bool) (x : double) : Prop :=
  match x with
  | S754_zero s' | S754_infinity s' | S754_finite s' _ _ => s' = s
  | S754_nan => False
  end.

(** [0 <= x] as the program would test it; false on NaN. *)
Definition nonneg (x : double) : Prop := leb zero x = true.

(** [m] is the maximum of [v]: an entry of [v] that every entry is below
    or equal to. *)
Definition is_maximum (m : double) (v : list double) : Prop :=
  (exists i, v !! i = Some m) /\ Forall (fun x => leb x m = true) v.

(** Element-wise [<=] between two states of a vector. *)
Definition pointwise_le (v w : list double) : Prop :=
  Forall2 (fun x y => leb x y = true) v w.

(** What [main] checks before it compares: the file name, both arrays
    numeric, equal tuple counts and equal component counts. *)
Definition numeric (a b : vtkDataArray) : Prop :=
  IsNumeric a = true /\ IsNumeric b = true.

Definition shape_compatible (a b : vtkDataArray) : Prop :=
  GetNumberOfTuples a = GetNumberOfTuples b /\
  GetNumberOfComponents a = GetNumberOfComponents b.

Definition vtu_file (args : Args) : Prop :=
  stringEndsWith (vtk_input_a args) ".vtu" = true.

(** The tuple count of [a] is in the range of the loop counter. *)
Definition counter_in_range (a : vtkDataArray) : Prop :=
  (Z.of_nat (GetNumberOfTuples a) <= INT_MAX)%Z.

(** Every component the scan reads from [a] is finite. *)
Definition all_finite (a : vtkDataArray) : Prop :=
  forall t c, t < GetNumberOfTuples a -> c < GetNumberOfComponents a ->
    is_finite (GetComponent a t c) = true.

(** [b] holds the same values as [a]. *)
Definition exact_copy (a b : vtkDataArray) : Prop :=
  IsNumeric b = IsNumeric a /\
  GetNumberOfTuples b = GetNumberOfTuples a /\
  GetNumberOfComponents b = GetNumberOfComponents a /\
  forall t c, t < GetNumberOfTuples a -> c < GetNumberOfComponents a ->
    GetComponent b t c = GetComponent a t c.

(** The pairs (tuple, component) in the order the loops visit them. *)
Definition indices (num_tuples num_components : nat) : list (nat * nat) :=
  flat_map (fun t => map (pair t) (seq 0 num_components)) (seq 0 num_tuples).

Definition step (args : Args) (a b : vtkDataArray) (st : ScanState)
    (tc : nat * nat) : ScanState :=
  loop_body args a b tc.1 tc.2 st.

(** The state of the scan after [k] executions of the loop body (all of
    them when [k] is beyond the end). *)
Definition scan_point (args : Args) (a b : vtkDataArray) (k : nat)
  : ScanState :=
  fold_left (step args a b)
            (take k (indices (GetNumberOfTuples a) (GetNumberOfComponents a)))
            {| norms := initial_norms (GetNumberOfComponents a);
               printed := [] |}.

(** The six vectors of a state. *)
Definition vectors (n : Norms) : list (list double) :=
  [abs_err_norm_l1 n; abs_err_norm_2_2 n; abs_err_norm_max n;
   rel_err_norm_l1 n; rel_err_norm_2_2 n; rel_err_norm_max n].

(** The first line of the output, unless [quiet]. *)
Definition announcement (args : Args) : list line :=
  if quiet args then []
  else [[Str "Comparing data array `"; Str (data_array_a args);
         Str "' from file `"; Str (vtk_input_a args);
         Str "' to data array `"; Str (data_array_b args);
         Str "' from file `"; Str (vtk_input_b args); Str "'.\n"]].

(** Inputs of the examples. *)
Definition default_args : Args :=
  {| quiet := false; verbose := true;
     abs_err_thr := of_Z2 1 (-52); rel_err_thr := of_Z2 1 (-52);
     vtk_input_a := "a.vtu"; vtk_input_b := "b.vtu";
     data_array_a := "p"; data_array_b := "p" |}.

Definition column (values : list Z) : vtkDataArray :=
  array_of_rows 1 (map (fun z => [of_Z z]) values).

Definition sample_a : vtkDataArray := column [1; 2]%Z.
Definition sample_b : vtkDataArray := column [3; 2]%Z.
Definition one : vtkDataArray := column [1]%Z.
Definition three : vtkDataArray := column [3]%Z.
Definition ten_tuples : vtkDataArray := column (List.repeat 0%Z 10).
Definition eleven_tuples : vtkDataArray := column (List.repeat 0%Z 11).
Definition no_tuples : vtkDataArray := column [].
Definition one_infinity : vtkDataArray := array_of_rows 1 [[infinity]].

(** One tuple without components. *)
Definition no_components : vtkDataArray := array_of_rows 0 [[]].

(** One tuple more than an [int] counts: 2^31 tuples of one component,
    all of them zero. *)
Definition beyond_int : vtkDataArray :=
  {| IsNumeric := true;
     GetDataTypeAsString := "double";
     GetNumberOfTuples := Z.to_nat (INT_MAX + 1);
     GetNumberOfComponents := 1;
     GetComponent _ _ := zero |}.

(** Two arrays whose largest absolute error (10, first tuple) and largest
    relative error (1, second tuple) come from different tuples, and
    thresholds 5 and 1/2 that no single element exceeds both. *)
Definition far_a : vtkDataArray := column [1000; 1]%Z.
Definition far_b : vtkDataArray := column [1010; 2]%Z.
Definition loose_args : Args :=
  {| quiet := true; verbose := true;
     abs_err_thr := of_Z 5; rel_err_thr := of_Z2 1 (-1);
     vtk_input_a := "a.vtu"; vtk_input_b := "b.vtu";
     data_array_a := "p"; data_array_b := "p" |}.

(** The diagnostic the loop body prints for one element, if any. *)
Definition diagnostics_of (args : Args) (a b : vtkDataArray) (tc : nat * nat)
  : list line :=
  let a_comp := GetComponent a tc.1 tc.2 in
  let b_comp := GetComponent b tc.1 tc.2 in
  let abs_err := absolute_error a_comp b_comp in
  let rel_err := relative_error a_comp b_comp in
  if gtb abs_err (abs_err_thr args) && gtb rel_err (rel_err_thr args)
     && verbose args
  then [diagnostic tc.1 tc.2 abs_err rel_err] else [].

(** Invariants of the scan: the length of the vectors, the sign of the
    maxima, and the sign of the sums. *)
Definition sized (nc : nat) (st : ScanState) : Prop :=
  Forall (fun v => length v = nc) (vectors (norms st)).

Definition max_signed_inv (st : ScanState) : Prop :=
  Forall (signed_as false) (abs_err_norm_max (norms st)) /\
  Forall (signed_as false) (rel_err_norm_max (norms st)).

Definition sums_signed_inv (st : ScanState) : Prop :=
  Forall (signed_as false) (abs_err_norm_l1 (norms st)) /\
  Forall (signed_as false) (abs_err_norm_2_2 (norms st)) /\
  Forall (signed_as false) (rel_err_norm_l1 (norms st)) /\
  Forall (signed_as false) (rel_err_norm_2_2 (norms st)).


(** Both vectors of maxima hold zeros only. *)
Definition max_zero_inv (nc : nat) (st : ScanState) : Prop :=
  abs_err_norm_max (norms st) = replicate nc zero /\
  rel_err_norm_max (norms st) = replicate nc zero.

(** All six vectors hold zeros only. *)
Definition all_zero (nc : nat) (n : Norms) : Prop :=
  Forall (fun v => v = replicate nc zero) (vectors n).

(** The decision rule of the specification, word for word: whatever the
    maxima of the two final vectors of maxima are, the run fails exactly
    when both exceed their thresholds, and passes otherwise. *)
Definition decision_rule_as_stated (args : Args) (a b : vtkDataArray) : Prop :=
  forall n M_abs M_rel,
    final_norms (main args (Some (a, b))) = Some n ->
    is_maximum M_abs (abs_err_norm_max n) ->
    is_maximum M_rel (rel_err_norm_max n) ->
    (status (main args (Some (a, b))) = Returned EXIT_FAILURE <->
       gtb M_abs (abs_err_thr args) = true /\
       gtb M_rel (rel_err_thr args) = true) /\
    (status (main args (Some (a, b))) = Returned EXIT_SUCCESS <->
       ~ (gtb M_abs (abs_err_thr args) = true /\
          gtb M_rel (rel_err_thr args) = true)).

(** P1 of the specification, word for word: all six vectors are zero and
    the run passes. *)
Definition identity_as_stated (args : Args) (a b : vtkDataArray) : Prop :=
  exists n,
    final_norms (main args (Some (a, b))) = Some n /\
    all_zero (GetNumberOfComponents a) n /\
    status (main args (Some (a, b))) = Returned EXIT_SUCCESS.

(** The invariant of the specification's data model, word for word: every
    entry of every vector is non-negative at every point of the scan. *)
Definition entries_nonneg_as_stated (args : Args) (a b : vtkDataArray) : Prop :=
  forall k, Forall (Forall nonneg) (vectors (norms (scan_point args a b k))).

(** ** The rest of the program *)

(** [operator<<] for a vector of doubles: brackets around the elements,
    separated by a comma and a space. The loop runs over the indices below
    [size - 1], an unsigned difference that the test for an empty vector
    keeps from wrapping around. *)
Definition print_vector (vector : list double) : list token :=
  match vector with
  | [] => [Str "[]"]
  | _ =>
      let size := length vector in
      [Str "["]
      ++ flat_map (fun i => [Flt (nth i vector zero); Str ", "])
                  (seq 0 (size - 1))
      ++ [Flt (List.last vector zero); Str "]"]
  end.

(** The members of VTK's attribute data and grid that the reader of the
    arrays calls. [GetScalars] returns a null pointer as [None]; nothing is
    assumed about how it relates to [HasArray]. *)
Record vtkDataSetAttributes := {
  HasArray : string -> bool;
  GetScalars : string -> option vtkDataArray
}.

Record vtkUnstructuredGrid := {
  GetPointData : vtkDataSetAttributes;
  GetCellData : vtkDataSetAttributes
}.

(** The files: what [Update] leaves in the reader's output, or [None] when
    the reader raises its error event. *)
Definition Files : Type := string -> option vtkUnstructuredGrid.

(** How [readDataArraysFromFile] ends: it returns its tuple, or the process
    is aborted; either way with what it wrote to [std::cerr]. *)
Inductive read_outcome :=
| ReadReturned (result : bool * option vtkDataArray * option vtkDataArray)
               (err : list line)
| ReadAborted (err : list line).

(** [ErrorCallback::Execute], the observer of the reader's error event;
    [std::endl] is written as a line feed. *)
Definition Execute (file_name : string) : read_outcome :=
  ReadAborted
    [[Str "Error reading file `"; Str file_name; Str "'. Aborting.";
      Str "\n"]].

Definition scalars_of (point_data : bool) (output : vtkUnstructuredGrid)
    (name : string) : option vtkDataArray :=
  if point_data then GetScalars (GetPointData output) name
  else GetScalars (GetCellData output) name.

Definition readDataArraysFromFile (files : Files)
    (file_a_name file_b_name data_array_a_name data_array_b_name : string)
  : read_outcome :=
  match files file_a_name with
  | None => Execute file_a_name
  | Some output_a =>
      let found :=
        if HasArray (GetPointData output_a) data_array_a_name then Some true
        else if HasArray (GetCellData output_a) data_array_a_name
             then Some false
             else None in
      match found with
      | None =>
          ReadReturned (false, None, None)
            [[Str "Error: Scalars data array "; Str "'";
              Str data_array_a_name; Str "'";
              Str " neither found in point data nor in cell data.\n"]]
      | Some point_data =>
          match scalars_of point_data output_a data_array_a_name with
          | None =>
              ReadReturned (false, None, None)
                [[Str "Error: Scalars data array "; Str "'";
                  Str data_array_a_name; Str "'";
                  Str " could not be read.\n"]]
          | Some a =>
              let finish (b : option vtkDataArray) :=
                match b with
                | None =>
                    ReadReturned (false, None, None)
                      [[Str "Error: Scalars data array "; Str "'";
                        Str data_array_b_name; Str "'";
                        Str " not found.\n"]]
                | Some b => ReadReturned (true, Some a, Some b) []
                end in
              if String.eqb file_b_name "" then
                if String.eqb data_array_a_name data_array_b_name then
                  ReadAborted
                    [[Str "Error: You are trying to compare data array `";
                      Str data_array_a_name; Str "' from file `";
                      Str file_a_name; Str "' to itself. Aborting.\n"]]
                else
                  finish (scalars_of point_data output_a data_array_b_name)
              else
                match files file_b_name with
                | None => Execute file_b_name
                | Some output_b =>
                    finish (scalars_of point_data output_b data_array_b_name)
                end
          end
      end
  end.

(** How the process ends: [main] returns, the reader aborts it, or [main]
    calls a member of a null array. *)
Inductive process :=
| Finished (run : Run)
| Killed (err : list line)
| NullDereferenced.

Definition with_errors (err : list line) (run : Run) : Run :=
  {| status := status run; cout := cout run; cerr := err ++ cerr run;
     final_norms := final_norms run |}.

(** [main] together with the reader it calls: the reader runs only for a
    [.vtu] name, [main] goes on only if [read_successful], and then uses
    both arrays unchecked. *)
Definition program (files : Files) (args : Args) : process :=
  if stringEndsWith (vtk_input_a args) ".vtu" then
    match readDataArraysFromFile files (vtk_input_a args) (vtk_input_b args)
                                 (data_array_a args) (data_array_b args) with
    | ReadAborted err => Killed err
    | ReadReturned (read_successful, a, b) err =>
        if read_successful then
          match a, b with
          | Some a, Some b => Finished (with_errors err (main args (Some (a, b))))
          | _, _ => NullDereferenced
          end
        else Finished (with_errors err (main args None))
    end
  else Finished (main args None).

(** Two sets of files have the same point data in every file. *)
Definition same_point_data (files files' : Files) : Prop :=
  forall name,
    option_map GetPointData (files name) = option_map GetPointData (files' name).

(** Files of the examples: [a.vtu] holds the point arrays [p] and [q] and a
    cell array [q]; no other file can be read. *)
Definition attributes (arrays : list (string * vtkDataArray))
  : vtkDataSetAttributes :=
  {| HasArray name :=
       existsb (fun entry => String.eqb entry.1 name) arrays;
     GetScalars name :=
       option_map snd
         (List.find (fun entry => String.eqb entry.1 name) arrays) |}.

Definition sample_files : Files :=
  fun name =>
    if String.eqb name "a.vtu" then
      Some {| GetPointData := attributes [("p", sample_a); ("q", sample_b)];
              GetCellData := attributes [("q", one)] |}
    else None.

Definition sample_files_other_cells : Files :=
  fun name =>
    if String.eqb name "a.vtu" then
      Some {| GetPointData := attributes [("p", sample_a); ("q", sample_b)];
              GetCellData := attributes [("p", three)] |}
    else None.

Definition one_file_args (array_a array_b : string) : Args :=
  {| quiet := false; verbose := true;
     abs_err_thr := of_Z2 1 (-52); rel_err_thr := of_Z2 1 (-52);
     vtk_input_a := "a.vtu"; vtk_input_b := "";
     data_array_a := array_a; data_array_b := array_b |}.

(** The same command line with other flags, or with other thresholds. *)
Definition set_flags (q v : bool) (args : Args) : Args :=
  {| quiet := q; verbose := v;
     abs_err_thr := abs_err_thr args; rel_err_thr := rel_err_thr args;
     vtk_input_a := vtk_input_a args; vtk_input_b := vtk_input_b args;
     data_array_a := data_array_a args; data_array_b := data_array_b args |}.

Definition set_thresholds (abs_thr rel_thr : double) (args : Args) : Args :=
  {| quiet := quiet args; verbose := verbose args;
     abs_err_thr := abs_thr; rel_err_thr := rel_thr;
     vtk_input_a := vtk_input_a args; vtk_input_b := vtk_input_b args;
     data_array_a := data_array_a args; data_array_b := data_array_b args |}.

(** The errors of component [c] over the tuples, in the order of the scan. *)
Definition column_abs_errors (a b : vtkDataArray) (c : nat) : list double :=
  map (fun t => absolute_error (GetComponent a t c) (GetComponent b t c))
      (seq 0 (GetNumberOfTuples a)).

Definition column_rel_errors (a b : vtkDataArray) (c : nat) : list double :=
  map (fun t => relative_error (GetComponent a t c) (GetComponent b t c))
      (seq 0 (GetNumberOfTuples a)).

(** The three accumulations of a sequence of errors, from zero. *)
Definition sum_of (errors : list double) : double :=
  fold_left add errors zero.

Definition sum_of_squares (errors : list double) : double :=
  fold_left (fun x e => add x (mul e e)) errors zero.

Definition maximum_of (errors : list double) : double :=
  fold_left max errors zero.

(** The return value that the last statement of [main] decides on. *)
Definition verdict (args : Args) (n : Norms) : outcome :=
  (decide_exit args n []).1.

Definition failed (o : outcome) : bool :=
  match o with
  | Returned EXIT_FAILURE => true
  | _ => false
  end.



Definition vtk_args : Args :=
  {| quiet := false; verbose := false;
     abs_err_thr := of_Z2 1 (-52); rel_err_thr := of_Z2 1 (-52);
     vtk_input_a := "a.vtk"; vtk_input_b := "";
     data_array_a := "p"; data_array_b := "q" |}.

Definition nought : vtkDataArray := column [0]%Z.

Definition text_array : vtkDataArray :=
  {| IsNumeric := false;
     GetDataTypeAsString := "string";
     GetNumberOfTuples := 1;
     GetNumberOfComponents := 1;
     GetComponent t c := zero |}.

(** * Facts about binary64 arithmetic *)

(** ** Rounding never yields NaN and keeps the sign it is given *)

Lemma shr_1_nonneg mrs : (0 <= shr_m mrs)%Z -> (0 <= shr_m (shr_1 mrs))%Z.
Proof.
  destruct mrs as [m r s]; simpl.
  destruct m as [|[p|p|]|[p|p|]]; simpl; lia.
Qed.

Lemma iter_pos_shr_1_nonneg p : forall mrs,
  (0 <= shr_m mrs)%Z -> (0 <= shr_m (SpecFloat.iter_pos shr_1 p mrs))%Z.
Proof.
  induction p as [p IH|p IH|]; intros mrs H; simpl.
  - apply IH, IH, shr_1_nonneg, H.
  - apply IH, IH, H.
  - apply shr_1_nonneg, H.
Qed.

Lemma shr_fexp_nonneg pr em m e l :
  (0 <= m)%Z -> (0 <= shr_m (fst (shr_fexp pr em m e l)))%Z.
Proof.
  intros H. unfold shr_fexp, shr.
  assert (H0 : (0 <= shr_m (shr_record_of_loc m l))%Z)
    by (destruct l as [|[]]; exact H).
  destruct (fexp pr em (Zdigits2 m + e) - e)%Z; simpl; try exact H0.
  apply iter_pos_shr_1_nonneg, H0.
Qed.

Lemma round_nearest_even_nonneg m l :
  (0 <= m)%Z -> (0 <= round_nearest_even m l)%Z.
Proof.
  intros H. destruct l as [|[]]; simpl; try lia.
  destruct (Z.even m); lia.
Qed.

Lemma binary_round_aux_signed pr em sx mx ex lx :
  (0 <= mx)%Z -> signed_as sx (binary_round_aux pr em sx mx ex lx).
Proof.
  intros H. unfold binary_round_aux.
  pose proof (shr_fexp_nonneg pr em mx ex lx H) as H1.
  destruct (shr_fexp pr em mx ex lx) as [mrs' e']. simpl in H1.
  pose proof (shr_fexp_nonneg pr em _ e' loc_Exact
                (round_nearest_even_nonneg _ (loc_of_shr_record mrs') H1)) as H2.
  destruct (shr_fexp pr em (round_nearest_even _ _) e' loc_Exact) as [mrs'' e''].
  simpl in H2.
  destruct (shr_m mrs'') as [|m|m]; simpl; try reflexivity; try lia.
  destruct (Z.leb e'' (em - pr)); reflexivity.
Qed.

Lemma binary_round_signed pr em sx mx ex :
  signed_as sx (binary_round pr em sx mx ex).
Proof.
  unfold binary_round.
  destruct (shl_align _ _ _) as [mz ez].
  apply binary_round_aux_signed. lia.
Qed.

Lemma binary_normalize_signed pr em m e sz :
  signed_as (if Z.eqb m 0 then sz else Z.ltb m 0) (binary_normalize pr em m e sz).
Proof.
  destruct m; simpl; try reflexivity; apply binary_round_signed.
Qed.

Lemma abs_binary_round_aux pr em s1 s2 mx ex lx :
  SFabs (binary_round_aux pr em s1 mx ex lx) = SFabs (binary_round_aux pr em s2 mx ex lx).
Proof.
  unfold binary_round_aux.
  destruct (shr_fexp pr em mx ex lx) as [mrs' e'].
  destruct (shr_fexp pr em _ e' loc_Exact) as [mrs'' e''].
  destruct (shr_m mrs''); try reflexivity.
  destruct (Z.leb e'' (em - pr)); reflexivity.
Qed.

Lemma abs_binary_normalize_opp pr em m e sz :
  SFabs (binary_normalize pr em (- m) e sz) = SFabs (binary_normalize pr em m e sz).
Proof.
  destruct m; simpl; try reflexivity; unfold binary_round;
    destruct (shl_align _ _ _); apply abs_binary_round_aux.
Qed.

Lemma absolute_error_sym x y : absolute_error x y = absolute_error y x.
Proof.
  unfold absolute_error, abs, sub.
  destruct x as [sx|sx| |sx mx ex], y as [sy|sy| |sy my ey];
    try reflexivity; try (destruct sx, sy; reflexivity).
  unfold SFsub. rewrite (Z.min_comm ey ex).
  rewrite <- abs_binary_normalize_opp. f_equal. f_equal. lia.
Qed.

Lemma sub_finite_signed x y :
  is_finite x = true -> is_finite y = true -> exists s, signed_as s (sub x y).
Proof.
  destruct x as [sx|sx| |sx mx ex], y as [sy|sy| |sy my ey]; try discriminate;
    intros _ _; unfold sub, SFsub.
  - destruct sx, sy; eexists; reflexivity.
  - eexists; reflexivity.
  - eexists; reflexivity.
  - eexists; apply binary_normalize_signed.
Qed.

Lemma abs_signed s x : signed_as s x -> signed_as false (abs x).
Proof. destruct x; simpl; auto. Qed.

Lemma absolute_error_signed x y :
  is_finite x = true -> is_finite y = true -> signed_as false (absolute_error x y).
Proof.
  intros Hx Hy. destruct (sub_finite_signed x y Hx Hy) as [s Hs].
  eapply abs_signed, Hs.
Qed.

Lemma add_signed x y :
  signed_as false x -> signed_as false y -> signed_as false (add x y).
Proof.
  destruct x as [sx|sx| |sx mx ex], y as [sy|sy| |sy my ey]; simpl;
    intros Hx Hy; try contradiction; subst; try reflexivity.
  unfold add, SFadd. 
  pose proof (binary_normalize_signed prec emax
    (cond_Zopp false (Z.pos (shl_align mx ex (Z.min ex ey)).1) +
     cond_Zopp false (Z.pos (shl_align my ey (Z.min ex ey)).1)) (Z.min ex ey) false) as H.
  simpl in H. exact H.
Qed.

Lemma mul_self_signed s x : signed_as s x -> signed_as false (mul x x).
Proof.
  destruct x as [sx|sx| |sx mx ex]; simpl; intros H; try contradiction.
  - destruct sx; reflexivity.
  - destruct sx; reflexivity.
  - unfold mul, SFmul. replace (xorb sx sx) with false by (destruct sx; reflexivity).
    apply binary_round_aux_signed. lia.
Qed.

Lemma div_signed x my ey :
  signed_as false x -> signed_as false (div x (S754_finite false my ey)).
Proof.
  destruct x as [sx|sx| |sx mx ex]; simpl; intros H; try contradiction; subst;
    try reflexivity.
  unfold div, SFdiv, SFdiv_core_binary.
  match goal with |- context [Z.div_eucl ?a ?b] =>
    pose proof (Z.div_pos a b) as Hq; unfold Z.div in Hq;
    destruct (Z.div_eucl a b) as [q r] end.
  apply binary_round_aux_signed. simpl in Hq. apply Hq; [|lia].
  destruct (_ - _ - _)%Z; try lia.
  apply Z.shiftl_nonneg. lia.
Qed.

Lemma signed_nonneg x : signed_as false x -> leb zero x = true.
Proof. destruct x as [s|s| |s m e]; simpl; intros H; try contradiction; subst; reflexivity. Qed.

Lemma leb_refl s x : signed_as s x -> leb x x = true.
Proof.
  unfold leb, SFleb. destruct x as [s'|s'| |s' m e]; simpl; try reflexivity; try contradiction; intros _.
  - destruct s'; reflexivity.
  - rewrite Z.compare_refl, Pos.compare_cont_refl. destruct s'; reflexivity.
Qed.

Lemma ltb_leb x y : ltb x y = true -> leb x y = true.
Proof. unfold ltb, leb, SFltb, SFleb. destruct (SFcompare x y) as [[]|]; congruence. Qed.

Ltac order_cases :=
  repeat match goal with
  | |- context [Z.compare ?a ?b] => destruct (Z.compare_spec a b); subst
  | H : context [Z.compare ?a ?b] |- _ => destruct (Z.compare_spec a b); subst
  | |- context [Pos.compare_cont Eq ?a ?b] =>
      change (Pos.compare_cont Eq a b) with (Pos.compare a b);
      destruct (Pos.compare_spec a b); subst
  | H : context [Pos.compare_cont Eq ?a ?b] |- _ =>
      change (Pos.compare_cont Eq a b) with (Pos.compare a b) in H;
      destruct (Pos.compare_spec a b); subst
  end; simpl in *; try congruence; try lia.

Lemma compare_Eq_cases x y :
  SFcompare x y = Some Eq ->
  x = y \/ exists s1 s2, x = S754_zero s1 /\ y = S754_zero s2.
Proof.
  destruct x as [sx|sx| |sx mx ex], y as [sy|sy| |sy my ey];
    simpl; try congruence;
    try (destruct sx; simpl; congruence);
    try (destruct sy; simpl; congruence);
    try (destruct sx, sy; simpl; congruence).
  - intros _. right. eauto.
  - destruct sx, sy; simpl; try congruence; auto.
  - intros H. left.
    assert (E : sx = sy /\ ex = ey /\ mx = my).
    { destruct sx, sy; simpl in H; try congruence;
        destruct (Z.compare_spec ex ey); try congruence;
        change (Pos.compare_cont Eq mx my) with (Pos.compare mx my) in H;
        destruct (Pos.compare_spec mx my); simpl in H; try congruence; auto. }
    destruct E as (-> & -> & ->). reflexivity.
Qed.

Lemma compare_Eq_l x y t :
  SFcompare x y = Some Eq -> SFcompare t x = SFcompare t y.
Proof.
  intros H. destruct (compare_Eq_cases x y H) as [->|(s1 & s2 & -> & ->)].
  - reflexivity.
  - destruct t; reflexivity.
Qed.

Lemma compare_antisym x y :
  SFcompare y x = option_map CompOpp (SFcompare x y).
Proof.
  destruct x as [sx|sx| |sx mx ex], y as [sy|sy| |sy my ey];
    simpl; try reflexivity;
    try (destruct sx; reflexivity);
    try (destruct sy; reflexivity);
    try (destruct sx, sy; reflexivity).
  change (Pos.compare_cont Eq mx my) with (Pos.compare mx my).
  change (Pos.compare_cont Eq my mx) with (Pos.compare my mx).
  rewrite (Z.compare_antisym ex ey), (Pos.compare_antisym mx my).
  destruct sx, sy; simpl; try reflexivity;
    destruct (ex ?= ey)%Z; simpl; try reflexivity;
    destruct (mx ?= my)%positive; reflexivity.
Qed.

Lemma compare_signed s s' x y :
  signed_as s x -> signed_as s' y -> is_Some (SFcompare x y).
Proof.
  destruct x, y; simpl; intros; try contradiction; eauto.
Qed.

Lemma not_ltb_leb s s' x y :
  signed_as s x -> signed_as s' y -> ltb x y = false -> leb y x = true.
Proof.
  intros Hx Hy. unfold ltb, leb, SFltb, SFleb.
  rewrite (compare_antisym x y).
  destruct (compare_signed _ _ _ _ Hx Hy) as [c ->].
  destruct c; simpl; congruence.
Qed.

Lemma leb_zero_not_gtb x : leb zero x = true -> gtb zero x = false.
Proof.
  unfold leb, gtb, SFleb, SFltb, zero.
  destruct x as [s|s| |s m e]; simpl; try reflexivity; destruct s; congruence.
Qed.

Lemma leb_trans x y z : leb x y = true -> leb y z = true -> leb x z = true.
Proof.
  unfold leb, SFleb.
  destruct x as [sx|sx| |sx mx ex], y as [sy|sy| |sy my ey], z as [sz|sz| |sz mz ez];
    simpl; try congruence;
    try (destruct sx; simpl; congruence);
    try (destruct sy; simpl; congruence);
    try (destruct sz; simpl; congruence);
    try (destruct sx, sy; simpl; congruence);
    try (destruct sx, sz; simpl; congruence);
    try (destruct sy, sz; simpl; congruence);
    try (destruct sx, sy, sz; simpl; congruence).
  all: destruct sx, sy, sz; simpl; try congruence; order_cases.
Qed.

Lemma max_signed x e : signed_as false x -> signed_as false (max x e).
Proof.
  unfold max, ltb, SFltb. intros Hx.
  destruct x as [sx|sx| |sx mx ex]; simpl in Hx; try contradiction; subst;
    destruct e as [se|se| |se me ee]; simpl; try reflexivity;
    try (destruct se; reflexivity).
  destruct se; simpl; try reflexivity.
  destruct (ex ?= ee)%Z; try reflexivity.
  destruct (Pos.compare_cont Eq mx me); reflexivity.
Qed.

Lemma max_ge x e : signed_as false x -> leb x (max x e) = true.
Proof.
  intros Hx. unfold max. destruct (ltb x e) eqn:E.
  - apply ltb_leb, E.
  - eapply leb_refl, Hx.
Qed.

Lemma relative_error_signed x y :
  is_finite x = true -> is_finite y = true -> signed_as false (relative_error x y).
Proof.
  intros Hx Hy. unfold relative_error.
  pose proof (absolute_error_signed x y Hx Hy) as Ha.
  destruct (eqb (absolute_error x y) zero); [reflexivity|].
  destruct (eqb x zero || eqb y zero) eqn:E; [reflexivity|].
  apply orb_false_elim in E as [Ex Ey].
  destruct x as [sx|sx| |sx mx ex]; try discriminate.
  destruct y as [sy|sy| |sy my ey]; try discriminate.
  unfold min, abs, SFabs. destruct (ltb _ _); apply div_signed, Ha.
Qed.

Lemma absolute_error_same x : is_finite x = true -> absolute_error x x = zero.
Proof.
  destruct x as [s|s| |s m e]; try discriminate; intros _.
  - destruct s; reflexivity.
  - unfold absolute_error, sub, SFsub. rewrite Z.sub_diag. reflexivity.
Qed.

Lemma relative_error_same x : is_finite x = true -> relative_error x x = zero.
Proof.
  intros H. unfold relative_error. rewrite (absolute_error_same x H). reflexivity.
Qed.

Lemma absolute_error_same_any x :
  absolute_error x x = zero \/ absolute_error x x = S754_nan.
Proof.
  destruct x as [s|s| |s m e].
  - left. destruct s; reflexivity.
  - right. destruct s; reflexivity.
  - right. reflexivity.
  - left. apply absolute_error_same. reflexivity.
Qed.

Lemma relative_error_same_any x :
  relative_error x x = zero \/ relative_error x x = S754_nan.
Proof.
  destruct x as [s|s| |s m e].
  - left. destruct s; reflexivity.
  - right. destruct s; reflexivity.
  - right. reflexivity.
  - left. apply relative_error_same. reflexivity.
Qed.

Lemma max_zero_or_nan e : e = zero \/ e = S754_nan -> max zero e = zero.
Proof. intros [->| ->]; reflexivity. Qed.

Lemma pointwise_le_refl v : Forall (signed_as false) v -> pointwise_le v v.
Proof.
  intros Hv. apply Forall2_same_length_lookup_2; [reflexivity|].
  intros i x y Hx Hy. rewrite Hx in Hy. injection Hy as <-.
  eapply leb_refl, (Forall_lookup_1 _ _ _ _ Hv Hx).
Qed.

Lemma pointwise_le_trans u v w :
  pointwise_le u v -> pointwise_le v w -> pointwise_le u w.
Proof.
  unfold pointwise_le. intros H1. revert w.
  induction H1 as [|x y u v Hxy H1 IH]; intros w H2; inversion H2; subst;
    constructor; [eapply leb_trans; eassumption|apply IH; assumption].
Qed.

(** * The scan *)

Ltac project_norms :=
  cbn [norms printed abs_err_norm_l1 abs_err_norm_2_2 abs_err_norm_max
       rel_err_norm_l1 rel_err_norm_2_2 rel_err_norm_max fst snd] in *.

Section Scan.
Context (args : Args) (a b : vtkDataArray).

Lemma fold_loop_body_step t l st :
  fold_left (fun st c => loop_body args a b t c st) l st =
  fold_left (step args a b) (map (pair t) l) st.
Proof. revert st; induction l as [|c l IH]; intros st; simpl; [reflexivity|apply IH]. Qed.

Lemma scan_flat nt nc st :
  scan args a b nt nc st = fold_left (step args a b) (indices nt nc) st.
Proof.
  unfold scan, indices. generalize (seq 0 nt) as ts. intros ts; revert st.
  induction ts as [|t ts IH]; intros st; simpl; [reflexivity|].
  rewrite fold_left_app, IH. f_equal. apply fold_loop_body_step.
Qed.

Lemma In_indices nt nc t c : In (t, c) (indices nt nc) <-> t < nt /\ c < nc.
Proof.
  unfold indices. rewrite in_flat_map. split.
  - intros (t' & Ht & Hc). apply in_map_iff in Hc as (c' & E & Hc).
    inversion E; subst. apply in_seq in Ht, Hc. lia.
  - intros [Ht Hc]. exists t. split; [apply in_seq; lia|].
    apply in_map, in_seq. lia.
Qed.

Lemma length_indices nt nc : length (indices nt nc) = nt * nc.
Proof.
  unfold indices.
  assert (H : forall ts : list nat, length (flat_map (fun t => map (pair t) (seq 0 nc)) ts)
                         = length ts * nc).
  { induction ts as [|t ts IH]; simpl; [reflexivity|].
    rewrite length_app, length_map, length_seq, IH. reflexivity. }
  rewrite H, length_seq. reflexivity.
Qed.

Lemma fold_step_invariant (P : ScanState -> Prop) l st :
  P st ->
  (forall st tc, In tc l -> P st -> P (step args a b st tc)) ->
  P (fold_left (step args a b) l st).
Proof.
  revert st; induction l as [|tc l IH]; intros st H0 Hs; simpl; [exact H0|].
  apply IH.
  - apply Hs; [left; reflexivity|exact H0].
  - intros st' tc' Hin. apply Hs. right; exact Hin.
Qed.

Lemma In_take {A} k (l : list A) x : In x (take k l) -> In x l.
Proof.
  rewrite <- !list_elem_of_In. apply subseteq_take.
Qed.

Lemma norms_fold l st st' :
  norms st = norms st' ->
  norms (fold_left (step args a b) l st) = norms (fold_left (step args a b) l st').
Proof.
  revert st st'; induction l as [|tc l IH]; intros st st' E; simpl; [exact E|].
  apply IH. unfold step, loop_body; simpl. rewrite E. reflexivity.
Qed.

Lemma printed_fold l st :
  printed (fold_left (step args a b) l st) = printed st ++ flat_map (diagnostics_of args a b) l.
Proof.
  revert st; induction l as [|tc l IH]; intros st; simpl.
  - rewrite app_nil_r. reflexivity.
  - rewrite IH. unfold step, loop_body, diagnostics_of; simpl.
    destruct (_ && _ && _); simpl.
    + rewrite <- app_assoc. reflexivity.
    + reflexivity.
Qed.

Lemma step_sized nc st tc : sized nc st -> sized nc (step args a b st tc).
Proof.
  unfold sized, vectors, step, loop_body; project_norms. intros H.
  repeat (apply Forall_cons in H as [? H]).
  repeat first [apply Forall_nil_2 | apply Forall_cons_2]; cbv beta;
    rewrite length_alter; assumption.
Qed.

Lemma step_max_signed st tc : max_signed_inv st -> max_signed_inv (step args a b st tc).
Proof.
  unfold max_signed_inv, step, loop_body; project_norms. intros [H1 H2].
  split; apply Forall_alter; auto; intros x _ Hx; apply max_signed, Hx.
Qed.

Lemma step_sums_signed st tc :
  is_finite (GetComponent a tc.1 tc.2) = true ->
  is_finite (GetComponent b tc.1 tc.2) = true ->
  sums_signed_inv st -> sums_signed_inv (step args a b st tc).
Proof.
  unfold sums_signed_inv, step, loop_body; project_norms. intros Ha Hb (H1 & H2 & H3 & H4).
  pose proof (absolute_error_signed _ _ Ha Hb) as Habs.
  pose proof (relative_error_signed _ _ Ha Hb) as Hrel.
  repeat split; apply Forall_alter; auto; intros x _ Hx; apply add_signed; auto;
    eapply mul_self_signed; eauto.
Qed.

Lemma step_max_mono st tc :
  max_signed_inv st ->
  pointwise_le (abs_err_norm_max (norms st))
               (abs_err_norm_max (norms (step args a b st tc))) /\
  pointwise_le (rel_err_norm_max (norms st))
               (rel_err_norm_max (norms (step args a b st tc))).
Proof.
  unfold max_signed_inv, step, loop_body; project_norms. intros [H1 H2].
  unfold pointwise_le in *.
  pose proof (pointwise_le_refl _ H1) as R1.
  pose proof (pointwise_le_refl _ H2) as R2.
  split; apply Forall2_alter_r; auto; intros x y Hx Hy Hle.
  - eapply leb_trans; [exact Hle|]. apply max_ge.
    eapply Forall_lookup_1 in H1; eauto.
  - eapply leb_trans; [exact Hle|]. apply max_ge.
    eapply Forall_lookup_1 in H2; eauto.
Qed.

Lemma initial_sized nc out :
  sized nc {| norms := initial_norms nc; printed := out |}.
Proof.
  unfold sized, vectors; simpl.
  repeat first [apply Forall_nil_2 | apply Forall_cons_2]; apply length_replicate.
Qed.

Lemma initial_max_signed nc out :
  max_signed_inv {| norms := initial_norms nc; printed := out |}.
Proof. split; simpl; apply Forall_replicate; reflexivity. Qed.

Lemma initial_sums_signed nc out :
  sums_signed_inv {| norms := initial_norms nc; printed := out |}.
Proof. repeat split; simpl; apply Forall_replicate; reflexivity. Qed.

Lemma scan_point_S k :
  scan_point args a b (S k) = scan_point args a b k \/
  exists tc, In tc (indices (GetNumberOfTuples a) (GetNumberOfComponents a)) /\
             scan_point args a b (S k) = step args a b (scan_point args a b k) tc.
Proof.
  unfold scan_point.
  destruct (indices (GetNumberOfTuples a) (GetNumberOfComponents a) !! k) as [tc|] eqn:E.
  - right. exists tc. split.
    + apply list_elem_of_In. eapply list_elem_of_lookup_2, E.
    + rewrite (take_S_r _ _ _ E), fold_left_app. reflexivity.
  - left. apply lookup_ge_None in E. rewrite !take_ge by lia. reflexivity.
Qed.

Lemma scan_point_sized k : sized (GetNumberOfComponents a) (scan_point args a b k).
Proof.
  unfold scan_point. apply (fold_step_invariant (sized _)); [apply initial_sized|].
  intros st tc _. apply step_sized.
Qed.

Lemma scan_point_max_signed k : max_signed_inv (scan_point args a b k).
Proof.
  unfold scan_point. apply (fold_step_invariant max_signed_inv); [apply initial_max_signed|].
  intros st tc _. apply step_max_signed.
Qed.

Lemma scan_point_sums_signed k :
  shape_compatible a b -> all_finite a -> all_finite b ->
  sums_signed_inv (scan_point args a b k).
Proof.
  intros [Et Ec] Ha Hb.
  unfold scan_point. apply (fold_step_invariant sums_signed_inv); [apply initial_sums_signed|].
  intros st [t c] Hin. apply In_take, In_indices in Hin as [Ht Hc].
  apply step_sums_signed; simpl.
  - apply Ha; assumption.
  - apply Hb; [rewrite <- Et|rewrite <- Ec]; assumption.
Qed.

Lemma scan_point_all k :
  GetNumberOfTuples a * GetNumberOfComponents a <= k ->
  scan_point args a b k =
  scan args a b (GetNumberOfTuples a) (GetNumberOfComponents a)
       {| norms := initial_norms (GetNumberOfComponents a); printed := [] |}.
Proof.
  intros H. unfold scan_point. rewrite scan_flat, take_ge; [reflexivity|].
  rewrite length_indices. exact H.
Qed.
End Scan.

(** * The decision *)

Lemma fold_max_spec rest : forall cur,
  signed_as false cur -> Forall (signed_as false) rest ->
  let r := fold_left (fun largest x => if ltb largest x then x else largest) rest cur in
  (r = cur \/ In r rest) /\ leb cur r = true /\ Forall (fun y => leb y r = true) rest.
Proof.
  induction rest as [|x rest IH]; intros cur Hc Hr; simpl.
  - split; [left; reflexivity|]. split; [eapply leb_refl, Hc|constructor].
  - apply Forall_cons in Hr as [Hx Hr].
    destruct (ltb cur x) eqn:E.
    + destruct (IH x Hx Hr) as (Hin & Hle & Hall). split; [|split].
      * right. destruct Hin as [->|Hin]; [left; reflexivity|right; exact Hin].
      * eapply leb_trans; [apply ltb_leb, E|exact Hle].
      * constructor; assumption.
    + destruct (IH cur Hc Hr) as (Hin & Hle & Hall). split; [|split].
      * destruct Hin as [->|Hin]; [left; reflexivity|right; right; exact Hin].
      * exact Hle.
      * constructor; [|assumption].
        eapply leb_trans; [|exact Hle]. eapply not_ltb_leb; eassumption.
Qed.

Lemma max_element_is_maximum v r :
  Forall (signed_as false) v -> max_element v = Some r -> is_maximum r v.
Proof.
  destruct v as [|first rest]; simpl; [discriminate|].
  intros Hv E. injection E as <-. apply Forall_cons in Hv as [Hf Hr].
  destruct (fold_max_spec rest first Hf Hr) as (Hin & Hle & Hall).
  split.
  - destruct Hin as [->|Hin].
    + exists 0. reflexivity.
    + apply list_elem_of_In, list_elem_of_lookup_1 in Hin as [i Hi].
      exists (S i). exact Hi.
  - constructor; assumption.
Qed.

Lemma max_element_nonempty v : 0 < length v -> is_Some (max_element v).
Proof. destruct v; simpl; [lia|eauto]. Qed.

Lemma max_element_empty v : length v = 0 -> max_element v = None.
Proof. destruct v; simpl; [reflexivity|discriminate]. Qed.

Lemma leb_antisym_Eq x y :
  leb x y = true -> leb y x = true -> SFcompare x y = Some Eq.
Proof.
  unfold leb, SFleb. rewrite (compare_antisym x y).
  destruct (SFcompare x y) as [[]|]; simpl; congruence.
Qed.

Lemma is_maximum_gtb m r v thr :
  is_maximum m v -> is_maximum r v -> gtb r thr = gtb m thr.
Proof.
  intros [[i Hi] Hm] [[j Hj] Hr].
  assert (E : SFcompare r m = Some Eq).
  { apply leb_antisym_Eq.
    - apply (Forall_lookup_1 _ _ _ _ Hm Hj).
    - apply (Forall_lookup_1 _ _ _ _ Hr Hi). }
  unfold gtb, SFltb. rewrite (compare_Eq_l r m thr E). reflexivity.
Qed.

Lemma decide_exit_maxima args n out M_abs M_rel :
  Forall (signed_as false) (abs_err_norm_max n) ->
  Forall (signed_as false) (rel_err_norm_max n) ->
  is_maximum M_abs (abs_err_norm_max n) ->
  is_maximum M_rel (rel_err_norm_max n) ->
  (decide_exit args n out).1 =
  Returned (if gtb M_abs (abs_err_thr args) && gtb M_rel (rel_err_thr args)
            then EXIT_FAILURE else EXIT_SUCCESS).
Proof.
  intros Sa Sr Ha Hr. unfold decide_exit.
  destruct (max_element (abs_err_norm_max n)) as [ma|] eqn:Ea.
  2:{ destruct Ha as [[i Hi] _]. destruct (abs_err_norm_max n); discriminate. }
  rewrite (is_maximum_gtb M_abs ma _ _ Ha (max_element_is_maximum _ _ Sa Ea)).
  destruct (gtb M_abs (abs_err_thr args)); [|reflexivity].
  destruct (max_element (rel_err_norm_max n)) as [mr|] eqn:Er.
  2:{ destruct Hr as [[i Hi] _]. destruct (rel_err_norm_max n); discriminate. }
  rewrite (is_maximum_gtb M_rel mr _ _ Hr (max_element_is_maximum _ _ Sr Er)).
  destruct (gtb M_rel (rel_err_thr args)); reflexivity.
Qed.

Lemma counter_in_range_cases a : counter_in_range a \/ ~ counter_in_range a.
Proof. unfold counter_in_range. lia. Qed.

Lemma counter_in_range_overflows a :
  counter_in_range a -> counter_overflows (GetNumberOfTuples a) = false.
Proof. unfold counter_in_range, counter_overflows. apply Z.ltb_ge. Qed.

Lemma counter_out_of_range_overflows a :
  ~ counter_in_range a -> counter_overflows (GetNumberOfTuples a) = true.
Proof.
  unfold counter_in_range, counter_overflows. intros H. apply Z.ltb_lt. lia.
Qed.

Lemma tuples_scanned_in_range a :
  counter_in_range a ->
  tuples_scanned (GetNumberOfTuples a) = GetNumberOfTuples a.
Proof.
  intros H. unfold tuples_scanned.
  rewrite (counter_in_range_overflows a H). reflexivity.
Qed.

Lemma tuples_scanned_le n : tuples_scanned n <= n.
Proof.
  unfold tuples_scanned, counter_overflows.
  destruct (Z.ltb_spec INT_MAX (Z.of_nat n)) as [H|H]; [|lia].
  unfold INT_MAX in *. lia.
Qed.

Lemma counter_in_range_same a b :
  GetNumberOfTuples a = GetNumberOfTuples b ->
  counter_in_range a -> counter_in_range b.
Proof. unfold counter_in_range. intros <-. exact id. Qed.

(** A run that passes every check: the scan, and then either the overflow
    of the counter or the report and the decision. *)
Lemma main_scans args a b :
  vtu_file args -> numeric a b -> shape_compatible a b ->
  main args (Some (a, b)) =
  let st := scan args a b (tuples_scanned (GetNumberOfTuples a))
                 (GetNumberOfComponents a)
                 {| norms := initial_norms (GetNumberOfComponents a);
                    printed := announcement args |} in
  if counter_overflows (GetNumberOfTuples a) then
    {| status := Undefined;
       cout := printed st;
       cerr := [];
       final_norms := Some (norms st) |}
  else
    let out := if quiet args then printed st else printed st ++ report (norms st) in
    {| status := (decide_exit args (norms st) out).1;
       cout := (decide_exit args (norms st) out).2;
       cerr := [];
       final_norms := Some (norms st) |}.
Proof.
  intros Hf [Ha Hb] [Ht Hc]. unfold main, vtu_file in *.
  rewrite Hf, Ha, Hb, <- Ht, <- Hc, !Nat.eqb_refl. cbn [negb].
  fold (announcement args). cbv zeta.
  destruct (counter_overflows _); [reflexivity|].
  destruct (decide_exit _ _ _). reflexivity.
Qed.

Lemma main_accepted args a b :
  vtu_file args -> numeric a b -> shape_compatible a b ->
  counter_in_range a ->
  main args (Some (a, b)) =
  let st := scan args a b (GetNumberOfTuples a) (GetNumberOfComponents a)
                 {| norms := initial_norms (GetNumberOfComponents a);
                    printed := announcement args |} in
  let out := if quiet args then printed st else printed st ++ report (norms st) in
  {| status := (decide_exit args (norms st) out).1;
     cout := (decide_exit args (norms st) out).2;
     cerr := [];
     final_norms := Some (norms st) |}.
Proof.
  intros Hf Hn Hs Hr. rewrite (main_scans _ _ _ Hf Hn Hs). cbv zeta.
  rewrite (tuples_scanned_in_range a Hr), (counter_in_range_overflows a Hr).
  reflexivity.
Qed.

Lemma main_overflow args a b :
  vtu_file args -> numeric a b -> shape_compatible a b ->
  ~ counter_in_range a ->
  status (main args (Some (a, b))) = Undefined.
Proof.
  intros Hf Hn Hs Hr. rewrite (main_scans _ _ _ Hf Hn Hs). cbv zeta.
  rewrite (counter_out_of_range_overflows a Hr). reflexivity.
Qed.

Lemma scan_norms args a b out :
  norms (scan args a b (GetNumberOfTuples a) (GetNumberOfComponents a)
              {| norms := initial_norms (GetNumberOfComponents a); printed := out |})
  = norms (scan_point args a b (GetNumberOfTuples a * GetNumberOfComponents a)).
Proof.
  rewrite scan_point_all by lia. rewrite !scan_flat. apply norms_fold. reflexivity.
Qed.

Lemma indices_app m k nc :
  indices (m + k) nc =
  indices m nc ++ flat_map (fun t => map (pair t) (seq 0 nc)) (seq m k).
Proof. unfold indices. rewrite seq_app, flat_map_app. reflexivity. Qed.

Lemma take_indices m nt nc :
  m <= nt -> take (m * nc) (indices nt nc) = indices m nc.
Proof.
  intros H. replace nt with (m + (nt - m)) by lia.
  rewrite indices_app, take_app_length'; [reflexivity|symmetry; apply length_indices].
Qed.

(** The vectors after the tuples that are scanned, whether or not the
    counter overflows afterwards. *)
Lemma scan_norms_scanned args a b out :
  norms (scan args a b (tuples_scanned (GetNumberOfTuples a))
              (GetNumberOfComponents a)
              {| norms := initial_norms (GetNumberOfComponents a); printed := out |})
  = norms (scan_point args a b
             (tuples_scanned (GetNumberOfTuples a) * GetNumberOfComponents a)).
Proof.
  unfold scan_point. rewrite take_indices by apply tuples_scanned_le.
  rewrite scan_flat. apply norms_fold. reflexivity.
Qed.

Lemma main_final_norms_scanned args a b :
  vtu_file args -> numeric a b -> shape_compatible a b ->
  final_norms (main args (Some (a, b))) =
  Some (norms (scan_point args a b
                 (tuples_scanned (GetNumberOfTuples a) * GetNumberOfComponents a))).
Proof.
  intros Hf Hn Hs. rewrite (main_scans _ _ _ Hf Hn Hs). cbv zeta.
  rewrite <- (scan_norms_scanned args a b (announcement args)).
  destruct (counter_overflows _); reflexivity.
Qed.

Lemma main_final_norms args a b :
  vtu_file args -> numeric a b -> shape_compatible a b ->
  counter_in_range a ->
  final_norms (main args (Some (a, b))) =
  Some (norms (scan_point args a b (GetNumberOfTuples a * GetNumberOfComponents a))).
Proof.
  intros Hf Hn Hs Hr. rewrite (main_final_norms_scanned _ _ _ Hf Hn Hs).
  rewrite (tuples_scanned_in_range a Hr). reflexivity.
Qed.

Lemma main_status args a b :
  vtu_file args -> numeric a b -> shape_compatible a b ->
  counter_in_range a ->
  exists out,
    status (main args (Some (a, b))) =
    (decide_exit args
       (norms (scan_point args a b (GetNumberOfTuples a * GetNumberOfComponents a)))
       out).1.
Proof.
  intros Hf Hn Hs Hr. rewrite (main_accepted _ _ _ Hf Hn Hs Hr). simpl.
  rewrite scan_norms. eauto.
Qed.

Lemma decide_exit_out args n out :
  (decide_exit args n out).2 = out \/
  (decide_exit args n out).2 = out ++ [failure_message].
Proof.
  unfold decide_exit.
  destruct (max_element (abs_err_norm_max n)); [|left; reflexivity].
  destruct (gtb _ _); [|left; reflexivity].
  destruct (max_element (rel_err_norm_max n)); [|left; reflexivity].
  destruct (gtb _ _); [|left; reflexivity].
  simpl. destruct (quiet args); [left|right]; reflexivity.
Qed.

(** ** Maxima that stay zero *)

Lemma alter_replicate {A} (f : A -> A) i n x :
  f x = x -> alter f i (replicate n x) = replicate n x.
Proof.
  intros E. revert i.
  induction n as [|n IH]; intros [|i]; simpl; try reflexivity.
  - rewrite E. reflexivity.
  - f_equal. apply IH.
Qed.

Lemma max_element_replicate n :
  1 <= n -> max_element (replicate n zero) = Some zero.
Proof.
  destruct n as [|n]; [lia|]. intros _. simpl. f_equal.
  induction n as [|n IH]; simpl; [reflexivity|exact IH].
Qed.

Lemma decide_exit_zero args n out nc :
  1 <= nc -> nonneg (abs_err_thr args) ->
  abs_err_norm_max n = replicate nc zero ->
  decide_exit args n out = (Returned EXIT_SUCCESS, out).
Proof.
  intros Hnc Hthr E. unfold decide_exit.
  rewrite E, (max_element_replicate _ Hnc), (leb_zero_not_gtb _ Hthr).
  reflexivity.
Qed.

Lemma step_same_max args a b nc st tc :
  GetComponent b tc.1 tc.2 = GetComponent a tc.1 tc.2 ->
  max_zero_inv nc st -> max_zero_inv nc (step args a b st tc).
Proof.
  unfold max_zero_inv, step, loop_body. project_norms. intros -> [-> ->].
  split; apply alter_replicate, max_zero_or_nan.
  - apply absolute_error_same_any.
  - apply relative_error_same_any.
Qed.

(** * The claims *)

(** ** The decision rule *)

(** C1. For shape-compatible numeric arrays of at most [INT_MAX] tuples,
    with [M_abs] the maximum of the per-component maxima of the absolute
    error and [M_rel] that of the relative error, [main] returns failure
    exactly when [M_abs] exceeds its threshold and [M_rel] exceeds its own;
    otherwise it returns success. The two maxima are taken independently
    of each other. *)
Theorem decision_rule args a b n M_abs M_rel :
  vtu_file args -> numeric a b -> shape_compatible a b ->
  counter_in_range a ->
  final_norms (main args (Some (a, b))) = Some n ->
  is_maximum M_abs (abs_err_norm_max n) ->
  is_maximum M_rel (rel_err_norm_max n) ->
  (status (main args (Some (a, b))) = Returned EXIT_FAILURE <->
     gtb M_abs (abs_err_thr args) = true /\
     gtb M_rel (rel_err_thr args) = true) /\
  (status (main args (Some (a, b))) = Returned EXIT_SUCCESS <->
     ~ (gtb M_abs (abs_err_thr args) = true /\
        gtb M_rel (rel_err_thr args) = true)).
Proof.
  intros Hf Hn Hs Hi En Ha Hr.
  rewrite (main_final_norms _ _ _ Hf Hn Hs Hi) in En. injection En as <-.
  destruct (main_status _ _ _ Hf Hn Hs Hi) as [out ->].
  destruct (scan_point_max_signed args a b
              (GetNumberOfTuples a * GetNumberOfComponents a)) as [Sa Sr].
  rewrite (decide_exit_maxima _ _ _ _ _ Sa Sr Ha Hr).
  destruct (gtb M_abs (abs_err_thr args)), (gtb M_rel (rel_err_thr args));
    simpl; intuition congruence.
Qed.

Lemma decision_rule_witness :
  (vtu_file default_args /\ numeric sample_a sample_b /\
   shape_compatible sample_a sample_b /\ counter_in_range sample_a) /\
  (status (main default_args (Some (sample_a, sample_b)))
     = Returned EXIT_FAILURE <->
     gtb (of_Z 2) (abs_err_thr default_args) = true /\
     gtb (of_Z 2) (rel_err_thr default_args) = true).
Proof.
  assert (Hi : counter_in_range sample_a)
    by (unfold counter_in_range, INT_MAX; simpl; lia).
  split; [repeat split; exact Hi|].
  refine (proj1 (decision_rule default_args sample_a sample_b _
                  (of_Z 2) (of_Z 2) _ _ _ Hi _ _ _)).
  - reflexivity.
  - split; reflexivity.
  - split; reflexivity.
  - vm_compute. reflexivity.
  - split; [exists 0; reflexivity|repeat constructor].
  - split; [exists 0; reflexivity|repeat constructor].
Defined.

(** C1, counterexample. The rule as the specification words it fails on an
    array of 2^31 tuples compared with itself: the tuple counter, an [int],
    overflows after the tuple of index [INT_MAX], so the run ends neither
    in failure nor in success, though both maxima are zero and do not
    exceed the thresholds. *)
Lemma decision_rule_counterexample :
  (vtu_file default_args /\ numeric beyond_int beyond_int /\
   shape_compatible beyond_int beyond_int) /\
  ~ counter_in_range beyond_int /\
  status (main default_args (Some (beyond_int, beyond_int))) = Undefined /\
  ~ decision_rule_as_stated default_args beyond_int beyond_int.
Proof.
  assert (Hf : vtu_file default_args) by reflexivity.
  assert (Hn : numeric beyond_int beyond_int) by (split; reflexivity).
  assert (Hs : shape_compatible beyond_int beyond_int)
    by (split; reflexivity).
  assert (Hi : ~ counter_in_range beyond_int).
  { unfold counter_in_range, beyond_int, INT_MAX. cbn [GetNumberOfTuples].
    lia. }
  assert (Hu := main_overflow _ _ _ Hf Hn Hs Hi).
  split; [auto|]. split; [exact Hi|]. split; [exact Hu|]. intros H.
  assert (Hmax : forall k,
             max_zero_inv 1 (scan_point default_args beyond_int beyond_int k)).
  { intros k. unfold scan_point.
    apply (fold_step_invariant _ _ _ (max_zero_inv 1)).
    - split; reflexivity.
    - intros st tc _. apply step_same_max. reflexivity. }
  assert (Hz : is_maximum zero (replicate 1 zero))
    by (split; [exists 0; reflexivity|repeat constructor]).
  destruct (H _ zero zero (main_final_norms_scanned _ _ _ Hf Hn Hs))
    as [Hfail Hpass].
  - rewrite (proj1 (Hmax _)). exact Hz.
  - rewrite (proj2 (Hmax _)). exact Hz.
  - rewrite Hu in Hfail, Hpass.
    assert (Hno : ~ (gtb zero (abs_err_thr default_args) = true /\
                     gtb zero (rel_err_thr default_args) = true))
      by (intros X; apply Hfail in X; discriminate X).
    apply Hpass in Hno. discriminate Hno.
Qed.

(** The maxima are independent: on [far_a] and [far_b] no element exceeds
    both thresholds, so no diagnostic is printed, and yet the run fails. *)
Example maxima_from_different_elements :
  exists n,
    final_norms (main loose_args (Some (far_a, far_b))) = Some n /\
    abs_err_norm_max n = [of_Z 10] /\ rel_err_norm_max n = [of_Z 1] /\
    cout (main loose_args (Some (far_a, far_b))) = [] /\
    status (main loose_args (Some (far_a, far_b))) = Returned EXIT_FAILURE.
Proof. eexists. vm_compute. auto. Qed.

(** ** The relative error *)

(** C2. The relative error of two components is zero when their absolute
    error compares equal to zero, infinite when otherwise one of them
    compares equal to zero, and else the absolute error divided by the
    smaller magnitude; so it is 0 for (5, 5), infinite for (0, 1), 0 for
    (0, 0) and 1 for (2, 4). *)
Theorem relative_error_policy (av bv : double) :
  (eqb (absolute_error av bv) zero = true -> relative_error av bv = zero) /\
  (eqb (absolute_error av bv) zero = false ->
   eqb av zero = true \/ eqb bv zero = true ->
   relative_error av bv = infinity) /\
  (eqb (absolute_error av bv) zero = false ->
   eqb av zero = false -> eqb bv zero = false ->
   relative_error av bv
   = div (absolute_error av bv) (min (abs av) (abs bv))) /\
  relative_error (of_Z 5) (of_Z 5) = zero /\
  relative_error (of_Z 0) (of_Z 1) = infinity /\
  relative_error (of_Z 0) (of_Z 0) = zero /\
  relative_error (of_Z 2) (of_Z 4) = of_Z 1.
Proof.
  unfold relative_error. repeat split; try (vm_compute; reflexivity).
  - intros ->. reflexivity.
  - intros -> [-> | ->]; [reflexivity|]. rewrite orb_true_r. reflexivity.
  - intros -> -> ->. reflexivity.
Qed.

Lemma relative_error_policy_witness :
  (eqb (absolute_error (of_Z 2) (of_Z 4)) zero = false /\
   eqb (of_Z 2) zero = false /\ eqb (of_Z 4) zero = false) /\
  relative_error (of_Z 2) (of_Z 4) =
  div (absolute_error (of_Z 2) (of_Z 4)) (min (abs (of_Z 2)) (abs (of_Z 4))).
Proof.
  split; [repeat split|].
  apply (proj1 (proj2 (proj2 (relative_error_policy (of_Z 2) (of_Z 4)))));
    reflexivity.
Defined.

(** ** The report *)

(** Unless [quiet], every line of the report reaches the output when the
    scan comes to its end. *)
Lemma report_printed args a b n l :
  vtu_file args -> numeric a b -> shape_compatible a b ->
  counter_in_range a ->
  quiet args = false ->
  final_norms (main args (Some (a, b))) = Some n ->
  In l (report n) -> In l (cout (main args (Some (a, b)))).
Proof.
  intros Hf Hn Hs Hi Hq En Hl. rewrite (main_accepted _ _ _ Hf Hn Hs Hi) in *.
  cbv zeta in *. cbn [cout final_norms] in *. injection En as <-.
  rewrite Hq.
  match goal with |- context [decide_exit ?x ?y ?z] =>
    destruct (decide_exit_out x y z) as [-> | ->] end;
    rewrite !in_app_iff; auto.
Qed.

(** The line labelled as the relative l2 norm carries the squared norm,
    whatever the arrays. *)
Lemma relative_l2_line args a b n :
  vtu_file args -> numeric a b -> shape_compatible a b ->
  counter_in_range a ->
  quiet args = false ->
  final_norms (main args (Some (a, b))) = Some n ->
  In [Str "rel l2-norm      = "; Vec (rel_err_norm_2_2 n); Str "\n"]
     (cout (main args (Some (a, b)))) /\
  In [Str "abs l2-norm      = "; Vec (map sqrt (abs_err_norm_2_2 n)); Str "\n"]
     (cout (main args (Some (a, b)))).
Proof.
  intros Hf Hn Hs Hi Hq En.
  split; apply (report_printed _ _ _ n _ Hf Hn Hs Hi Hq En); unfold report;
    cbn [In]; tauto.
Qed.

(** C3. The report is to show both l2 norms after taking the square root.
    Comparing the one-component arrays [1] and [3], whose relative error is
    2, the line of the relative l2 norm shows 4, the squared norm, and no
    line shows its square root 2; the line of the absolute l2 norm does show
    the square root. *)
Theorem relative_l2_printed_squared :
  exists n,
    final_norms (main default_args (Some (one, three))) = Some n /\
    rel_err_norm_2_2 n = [of_Z 4] /\
    map sqrt (rel_err_norm_2_2 n) = [of_Z 2] /\
    In [Str "rel l2-norm      = "; Vec [of_Z 4]; Str "\n"]
       (cout (main default_args (Some (one, three)))) /\
    ~ In [Str "rel l2-norm      = "; Vec [of_Z 2]; Str "\n"]
         (cout (main default_args (Some (one, three)))) /\
    In [Str "abs l2-norm      = "; Vec (map sqrt (abs_err_norm_2_2 n)); Str "\n"]
       (cout (main default_args (Some (one, three)))).
Proof.
  eexists. split; [vm_compute; reflexivity|].
  split; [reflexivity|]. split; [reflexivity|].
  split; [vm_compute; tauto|]. split; [|vm_compute; tauto].
  vm_compute. intros H.
  repeat (destruct H as [H|H]; [discriminate H|]). exact H.
Qed.

(** ** The per-element diagnostics *)








(** ** Arrays of different shape *)

(** C5. When the tuple counts or the component counts of two numeric arrays
    differ, [main] returns failure, the error stream names both differing
    counts, and the vectors are never created: nothing was scanned and no
    diagnostic was printed. *)
Theorem shape_mismatch args a b :
  vtu_file args -> numeric a b ->
  GetNumberOfTuples a <> GetNumberOfTuples b \/
  GetNumberOfComponents a <> GetNumberOfComponents b ->
  let run := main args (Some (a, b)) in
  status run = Returned EXIT_FAILURE /\
  final_norms run = None /\
  cout run = announcement args /\
  (GetNumberOfTuples a <> GetNumberOfTuples b /\
   cerr run = [[Str "Number of tuples differ:\n"; Num (GetNumberOfTuples a);
                Str " in data array a and "; Num (GetNumberOfTuples b);
                Str " in data array b\n"]]
   \/
   GetNumberOfTuples a = GetNumberOfTuples b /\
   GetNumberOfComponents a <> GetNumberOfComponents b /\
   cerr run = [[Str "Number of components differ:\n";
                Num (GetNumberOfComponents a); Str " in data array a and ";
                Num (GetNumberOfComponents b); Str " in data array b\n"]]).
Proof.
  intros Hf [Ha Hb] Hd. unfold main, vtu_file in *.
  rewrite Hf, Ha, Hb. cbn [negb]. fold (announcement args).
  destruct (Nat.eqb_spec (GetNumberOfTuples a) (GetNumberOfTuples b))
    as [Et|Et]; cbn [negb].
  - destruct (Nat.eqb_spec (GetNumberOfComponents a) (GetNumberOfComponents b))
      as [Ec|Ec]; cbn [negb].
    + tauto.
    + cbn. auto 10.
  - cbn. auto 10.
Qed.

Lemma shape_mismatch_witness :
  (vtu_file default_args /\ numeric ten_tuples eleven_tuples /\
   GetNumberOfTuples ten_tuples <> GetNumberOfTuples eleven_tuples) /\
  status (main default_args (Some (ten_tuples, eleven_tuples)))
  = Returned EXIT_FAILURE /\
  final_norms (main default_args (Some (ten_tuples, eleven_tuples))) = None.
Proof.
  assert (Hd : GetNumberOfTuples ten_tuples <> GetNumberOfTuples eleven_tuples)
    by (vm_compute; lia).
  split; [repeat split; exact Hd|].
  destruct (shape_mismatch default_args ten_tuples eleven_tuples eq_refl
              (conj eq_refl eq_refl) (or_introl Hd)) as (H1 & H2 & _).
  split; [exact H1|exact H2].
Defined.

(** ** Comparing an array with a copy of itself *)

Lemma step_same_all args a b nc st tc :
  GetComponent b tc.1 tc.2 = GetComponent a tc.1 tc.2 ->
  is_finite (GetComponent a tc.1 tc.2) = true ->
  all_zero nc (norms st) -> all_zero nc (norms (step args a b st tc)).
Proof.
  unfold all_zero, vectors, step, loop_body. project_norms. intros -> Hfin H.
  repeat (apply Forall_cons in H as [-> H]).
  rewrite (absolute_error_same _ Hfin), (relative_error_same _ Hfin).
  repeat first [apply Forall_nil_2 | apply Forall_cons_2];
    apply alter_replicate; reflexivity.
Qed.

Lemma initial_all_zero nc : all_zero nc (initial_norms nc).
Proof. unfold all_zero, vectors; simpl. repeat constructor. Qed.

(** C6 (identity, P1), in the form that holds. Comparing an array of at
    most [INT_MAX] tuples and at least one component with an exact copy
    passes for all thresholds that are not negative, and both vectors of
    maxima are zero; when every value of the array is finite, all six
    vectors are zero. *)
Theorem identity args a b :
  vtu_file args -> IsNumeric a = true -> exact_copy a b ->
  counter_in_range a -> 1 <= GetNumberOfComponents a ->
  nonneg (abs_err_thr args) -> nonneg (rel_err_thr args) ->
  exists n,
    final_norms (main args (Some (a, b))) = Some n /\
    status (main args (Some (a, b))) = Returned EXIT_SUCCESS /\
    abs_err_norm_max n = replicate (GetNumberOfComponents a) zero /\
    rel_err_norm_max n = replicate (GetNumberOfComponents a) zero /\
    (all_finite a -> all_zero (GetNumberOfComponents a) n).
Proof.
  intros Hf Ha (En & Et & Ec & Ev) Hi Hnc Hta Htr.
  assert (Hn : numeric a b) by (split; congruence).
  assert (Hs : shape_compatible a b) by (split; congruence).
  set (k := GetNumberOfTuples a * GetNumberOfComponents a).
  assert (Hmax : max_zero_inv (GetNumberOfComponents a)
                              (scan_point args a b k)).
  { unfold scan_point. apply (fold_step_invariant args a b (max_zero_inv _)).
    - split; reflexivity.
    - intros st [t c] Hin. apply In_take, In_indices in Hin as [Ht Hc].
      apply step_same_max. apply Ev; assumption. }
  exists (norms (scan_point args a b k)).
  split; [apply main_final_norms; assumption|].
  split; [|split; [apply Hmax|split; [apply Hmax|]]].
  - destruct (main_status _ _ _ Hf Hn Hs Hi) as [out ->]. fold k.
    rewrite (decide_exit_zero _ _ _ _ Hnc Hta (proj1 Hmax)). reflexivity.
  - intros Hfin. unfold scan_point.
    apply (fold_step_invariant args a b (fun st => all_zero _ (norms st))).
    + apply initial_all_zero.
    + intros st [t c] Hin. apply In_take, In_indices in Hin as [Ht Hc].
      apply step_same_all; [apply Ev|apply Hfin]; assumption.
Qed.

Lemma identity_witness :
  (vtu_file default_args /\ IsNumeric sample_a = true /\
   exact_copy sample_a sample_a /\ counter_in_range sample_a /\
   1 <= GetNumberOfComponents sample_a /\
   nonneg (abs_err_thr default_args) /\ nonneg (rel_err_thr default_args)) /\
  exists n,
    final_norms (main default_args (Some (sample_a, sample_a))) = Some n /\
    status (main default_args (Some (sample_a, sample_a)))
    = Returned EXIT_SUCCESS /\
    abs_err_norm_max n = replicate (GetNumberOfComponents sample_a) zero /\
    rel_err_norm_max n = replicate (GetNumberOfComponents sample_a) zero /\
    (all_finite sample_a -> all_zero (GetNumberOfComponents sample_a) n).
Proof.
  assert (Hc : exact_copy sample_a sample_a) by (repeat split).
  assert (Hi : counter_in_range sample_a)
    by (unfold counter_in_range, INT_MAX; simpl; lia).
  split; [repeat split; try reflexivity; try exact Hi; vm_compute; lia|].
  apply (identity default_args sample_a sample_a eq_refl eq_refl Hc Hi);
    vm_compute; [lia| |]; reflexivity.
Defined.

(** C6, counterexample. P1 as the specification words it fails on the
    array that holds one infinity: [inf - inf] is NaN, and so are the sums
    of the errors, while the maxima stay zero and the run passes. *)
Lemma identity_counterexample :
  (vtu_file default_args /\ IsNumeric one_infinity = true /\
   exact_copy one_infinity one_infinity /\
   nonneg (abs_err_thr default_args) /\ nonneg (rel_err_thr default_args)) /\
  final_norms (main default_args (Some (one_infinity, one_infinity))) =
    Some {| abs_err_norm_l1 := [S754_nan]; abs_err_norm_2_2 := [S754_nan];
            abs_err_norm_max := [zero];
            rel_err_norm_l1 := [S754_nan]; rel_err_norm_2_2 := [S754_nan];
            rel_err_norm_max := [zero] |} /\
  ~ identity_as_stated default_args one_infinity one_infinity.
Proof.
  split; [repeat split|]. split; [vm_compute; reflexivity|].
  intros (n & En & Hz & _). vm_compute in En. injection En as <-.
  unfold all_zero, vectors in Hz. apply Forall_cons in Hz as [Hz _].
  discriminate Hz.
Qed.

(** ** Swapping the arrays *)

Lemma fold_step_swap args a b l : forall st st',
  abs_err_norm_l1 (norms st) = abs_err_norm_l1 (norms st') ->
  abs_err_norm_max (norms st) = abs_err_norm_max (norms st') ->
  let r := fold_left (step args a b) l st in
  let r' := fold_left (step args b a) l st' in
  abs_err_norm_l1 (norms r) = abs_err_norm_l1 (norms r') /\
  abs_err_norm_max (norms r) = abs_err_norm_max (norms r').
Proof.
  induction l as [|tc l IH]; intros st st' H1 H2; simpl; [split; assumption|].
  apply IH; unfold step, loop_body; project_norms;
    rewrite (absolute_error_sym (GetComponent b tc.1 tc.2)); congruence.
Qed.

(** C7. For shape-compatible arrays the l1 norms and the maximum norms of
    the absolute error are the same, component by component, whether [a] is
    compared with [b] or [b] with [a]. *)
Theorem absolute_norms_symmetric args a b :
  vtu_file args -> numeric a b -> shape_compatible a b ->
  exists n n',
    final_norms (main args (Some (a, b))) = Some n /\
    final_norms (main args (Some (b, a))) = Some n' /\
    abs_err_norm_l1 n = abs_err_norm_l1 n' /\
    abs_err_norm_max n = abs_err_norm_max n'.
Proof.
  intros Hf [Ha Hb] [Et Ec].
  rewrite (main_final_norms_scanned args a b Hf (conj Ha Hb) (conj Et Ec)).
  rewrite (main_final_norms_scanned args b a Hf (conj Hb Ha)
             (conj (eq_sym Et) (eq_sym Ec))).
  do 2 eexists. split; [reflexivity|]. split; [reflexivity|].
  unfold scan_point. rewrite <- Et, <- Ec.
  apply fold_step_swap; reflexivity.
Qed.

Lemma absolute_norms_symmetric_witness :
  (vtu_file default_args /\ numeric sample_a sample_b /\
   shape_compatible sample_a sample_b) /\
  exists n n',
    final_norms (main default_args (Some (sample_a, sample_b))) = Some n /\
    final_norms (main default_args (Some (sample_b, sample_a))) = Some n' /\
    abs_err_norm_l1 n = abs_err_norm_l1 n' /\
    abs_err_norm_max n = abs_err_norm_max n'.
Proof.
  split; [repeat split|].
  apply (absolute_norms_symmetric default_args sample_a sample_b eq_refl
           (conj eq_refl eq_refl) (conj eq_refl eq_refl)).
Defined.

(** ** Invariants of the scan *)

Lemma scan_point_mono args a b k k' :
  k <= k' ->
  pointwise_le (abs_err_norm_max (norms (scan_point args a b k)))
               (abs_err_norm_max (norms (scan_point args a b k'))) /\
  pointwise_le (rel_err_norm_max (norms (scan_point args a b k)))
               (rel_err_norm_max (norms (scan_point args a b k'))).
Proof.
  induction 1 as [|k' Hle [IHa IHr]].
  - destruct (scan_point_max_signed args a b k).
    split; apply pointwise_le_refl; assumption.
  - destruct (scan_point_S args a b k') as [-> | (tc & _ & ->)];
      [split; assumption|].
    destruct (step_max_mono args a b _ tc (scan_point_max_signed args a b k')).
    split; eapply pointwise_le_trans; eassumption.
Qed.

Lemma signed_all_nonneg v : Forall (signed_as false) v -> Forall nonneg v.
Proof. intros H. eapply Forall_impl; [exact H|exact signed_nonneg]. Qed.

(** C8 (invariants of the vectors), in the form that holds for every input.
    At every point of the scan the six vectors have one entry per component,
    the entries of both vectors of maxima are non-negative and never
    decrease from one point to a later one, and, when all values of both
    arrays are finite, every entry of every vector is non-negative. *)
Theorem scan_invariants args a b k k' :
  k <= k' ->
  let n := norms (scan_point args a b k) in
  let n' := norms (scan_point args a b k') in
  Forall (fun v => length v = GetNumberOfComponents a) (vectors n) /\
  (Forall nonneg (abs_err_norm_max n) /\ Forall nonneg (rel_err_norm_max n)) /\
  (pointwise_le (abs_err_norm_max n) (abs_err_norm_max n') /\
   pointwise_le (rel_err_norm_max n) (rel_err_norm_max n')) /\
  (shape_compatible a b -> all_finite a -> all_finite b ->
   Forall (Forall nonneg) (vectors n)).
Proof.
  intros Hle n n'. subst n n'.
  destruct (scan_point_max_signed args a b k) as [Sa Sr].
  split; [apply scan_point_sized|].
  split; [split; apply signed_all_nonneg; assumption|].
  split; [apply scan_point_mono, Hle|].
  intros Hs Ha Hb.
  destruct (scan_point_sums_signed args a b k Hs Ha Hb) as (H1 & H2 & H3 & H4).
  unfold vectors.
  repeat first [apply Forall_nil_2 | apply Forall_cons_2];
    apply signed_all_nonneg; assumption.
Qed.

Lemma scan_invariants_witness :
  (1 <= 2 /\ shape_compatible sample_a sample_b /\
   all_finite sample_a /\ all_finite sample_b) /\
  Forall (Forall nonneg)
         (vectors (norms (scan_point default_args sample_a sample_b 1))) /\
  pointwise_le
    (abs_err_norm_max (norms (scan_point default_args sample_a sample_b 1)))
    (abs_err_norm_max (norms (scan_point default_args sample_a sample_b 2))).
Proof.
  assert (Hl : 1 <= 2) by lia.
  assert (Hs : shape_compatible sample_a sample_b) by (split; reflexivity).
  assert (Ha : all_finite sample_a).
  { intros [|[|t]] [|c] Ht Hc; try reflexivity; vm_compute in Ht, Hc; lia. }
  assert (Hb : all_finite sample_b).
  { intros [|[|t]] [|c] Ht Hc; try reflexivity; vm_compute in Ht, Hc; lia. }
  split; [repeat split; assumption|].
  destruct (scan_invariants default_args sample_a sample_b 1 2 Hl)
    as (_ & _ & [Hm _] & Hf).
  split; [exact (Hf Hs Ha Hb)|exact Hm].
Defined.

(** C8, counterexample. Non-negativity of every entry fails on the array
    that holds one infinity: after the first step the l1 norm of the
    absolute error is NaN. *)
Lemma scan_invariants_counterexample :
  shape_compatible one_infinity one_infinity /\
  abs_err_norm_l1 (norms (scan_point default_args one_infinity one_infinity 1))
  = [S754_nan] /\
  ~ entries_nonneg_as_stated default_args one_infinity one_infinity.
Proof.
  split; [split; reflexivity|]. split; [reflexivity|].
  intros H. specialize (H 1). unfold vectors in H.
  apply Forall_cons in H as [H _]. vm_compute in H.
  apply Forall_cons in H as [H _]. discriminate H.
Qed.

(** ** Arrays without components or without tuples *)

(** C9. With no component the vectors are empty, [std::max_element]
    returns the end iterator of an empty range and the decision
    dereferences it: the run has no defined result. With at least one
    component both maxima exist and are the values [std::max_element]
    points to, the decision does not reach that branch, and [main] returns
    an exit code when the tuple counter stays in range. *)
Theorem arity_precondition args a b :
  vtu_file args -> numeric a b -> shape_compatible a b ->
  exists n,
    final_norms (main args (Some (a, b))) = Some n /\
    (GetNumberOfComponents a = 0 ->
       max_element (abs_err_norm_max n) = None /\
       max_element (rel_err_norm_max n) = None /\
       status (main args (Some (a, b))) = Undefined) /\
    (1 <= GetNumberOfComponents a ->
       (exists M_abs M_rel,
          max_element (abs_err_norm_max n) = Some M_abs /\
          is_maximum M_abs (abs_err_norm_max n) /\
          max_element (rel_err_norm_max n) = Some M_rel /\
          is_maximum M_rel (rel_err_norm_max n)) /\
       (forall out, exists code,
          (decide_exit args n out).1 = Returned code) /\
       (counter_in_range a ->
        exists code, status (main args (Some (a, b))) = Returned code)).
Proof.
  intros Hf Hn Hs.
  set (k := tuples_scanned (GetNumberOfTuples a) * GetNumberOfComponents a).
  exists (norms (scan_point args a b k)).
  split; [apply main_final_norms_scanned; assumption|].
  pose proof (scan_point_sized args a b k) as Hsz.
  unfold sized, vectors in Hsz.
  apply Forall_cons in Hsz as [_ Hsz]. apply Forall_cons in Hsz as [_ Hsz].
  apply Forall_cons in Hsz as [La Hsz]. apply Forall_cons in Hsz as [_ Hsz].
  apply Forall_cons in Hsz as [_ Hsz]. apply Forall_cons in Hsz as [Lr _].
  destruct (scan_point_max_signed args a b k) as [Sa Sr].
  split.
  - intros E0. rewrite E0 in La, Lr.
    assert (Ea := max_element_empty _ La).
    split; [exact Ea|]. split; [exact (max_element_empty _ Lr)|].
    destruct (counter_in_range_cases a) as [Hi|Hi].
    + destruct (main_status _ _ _ Hf Hn Hs Hi) as [out ->].
      rewrite <- (tuples_scanned_in_range a Hi). fold k.
      unfold decide_exit. rewrite Ea. reflexivity.
    + apply main_overflow; assumption.
  - intros Hnc.
    destruct (max_element_nonempty
                (abs_err_norm_max (norms (scan_point args a b k))))
      as [ma Ea]; [lia|].
    destruct (max_element_nonempty
                (rel_err_norm_max (norms (scan_point args a b k))))
      as [mr Er]; [lia|].
    assert (Hd : forall out, exists code,
               (decide_exit args (norms (scan_point args a b k)) out).1
               = Returned code).
    { intros out. unfold decide_exit. rewrite Ea, Er.
      destruct (gtb ma _); [destruct (gtb mr _)|]; eauto. }
    split; [|split; [exact Hd|]].
    + exists ma, mr. repeat split; try assumption;
        apply max_element_is_maximum; assumption.
    + intros Hi. destruct (main_status _ _ _ Hf Hn Hs Hi) as [out ->].
      rewrite <- (tuples_scanned_in_range a Hi). apply Hd.
Qed.

Lemma arity_precondition_witness :
  (vtu_file default_args /\
   (numeric no_components no_components /\
    shape_compatible no_components no_components /\
    GetNumberOfComponents no_components = 0) /\
   (numeric sample_a sample_b /\ shape_compatible sample_a sample_b /\
    1 <= GetNumberOfComponents sample_a /\ counter_in_range sample_a)) /\
  status (main default_args (Some (no_components, no_components)))
  = Undefined /\
  (exists n,
     final_norms (main default_args (Some (no_components, no_components)))
     = Some n /\
     max_element (abs_err_norm_max n) = None /\
     max_element (rel_err_norm_max n) = None) /\
  (exists n,
     final_norms (main default_args (Some (sample_a, sample_b))) = Some n /\
     max_element (abs_err_norm_max n) = Some (of_Z 2) /\
     is_maximum (of_Z 2) (abs_err_norm_max n) /\
     max_element (rel_err_norm_max n) = Some (of_Z 2) /\
     is_maximum (of_Z 2) (rel_err_norm_max n)) /\
  status (main default_args (Some (sample_a, sample_b)))
  = Returned EXIT_FAILURE.
Proof.
  assert (Hi : counter_in_range sample_a)
    by (unfold counter_in_range, INT_MAX; simpl; lia).
  assert (Hc : 1 <= GetNumberOfComponents sample_a) by (simpl; lia).
  split; [repeat split; assumption|].
  destruct (arity_precondition default_args no_components no_components
              eq_refl (conj eq_refl eq_refl) (conj eq_refl eq_refl))
    as (n0 & Hn0 & Hzero & _).
  destruct (Hzero eq_refl) as (Ea0 & Er0 & Hu).
  destruct (arity_precondition default_args sample_a sample_b eq_refl
              (conj eq_refl eq_refl) (conj eq_refl eq_refl))
    as (n & Hn & _ & Hpos).
  destruct (Hpos Hc) as ((ma & mr & Ea & Ha & Er & Hr) & _ & Hret).
  destruct (Hret Hi) as [code Hcode].
  split; [exact Hu|]. split; [exists n0; auto|].
  vm_compute in Hn. injection Hn as <-.
  vm_compute in Ea. injection Ea as <-.
  vm_compute in Er. injection Er as <-.
  split.
  - eexists. split; [vm_compute; reflexivity|].
    split; [reflexivity|]. split; [exact Ha|]. split; [reflexivity|exact Hr].
  - rewrite Hcode. vm_compute in Hcode. injection Hcode as <-. reflexivity.
Defined.

(** C10. With no tuple and at least one component nothing is accumulated at
    any point of the scan, all six vectors stay zero, no diagnostic is
    printed, and the run passes for all thresholds that are not negative. *)
Theorem zero_tuples args a b :
  vtu_file args -> numeric a b -> shape_compatible a b ->
  GetNumberOfTuples a = 0 -> 1 <= GetNumberOfComponents a ->
  nonneg (abs_err_thr args) -> nonneg (rel_err_thr args) ->
  (forall k,
     norms (scan_point args a b k) = initial_norms (GetNumberOfComponents a)) /\
  exists n,
    final_norms (main args (Some (a, b))) = Some n /\
    all_zero (GetNumberOfComponents a) n /\
    status (main args (Some (a, b))) = Returned EXIT_SUCCESS /\
    cout (main args (Some (a, b))) =
      announcement args ++ (if quiet args then [] else report n).
Proof.
  intros Hf Hn Hs Ht Hnc Hta Htr.
  assert (Hk : forall k, norms (scan_point args a b k)
                         = initial_norms (GetNumberOfComponents a)).
  { intros k. unfold scan_point. rewrite Ht. destruct k; reflexivity. }
  split; [exact Hk|].
  assert (Hi : counter_in_range a).
  { unfold counter_in_range, INT_MAX. rewrite Ht. lia. }
  exists (initial_norms (GetNumberOfComponents a)).
  rewrite (main_accepted _ _ _ Hf Hn Hs Hi). cbv zeta. rewrite Ht.
  unfold scan. cbn [seq fold_left norms printed final_norms status cout].
  rewrite (decide_exit_zero args (initial_norms (GetNumberOfComponents a)) _
             (GetNumberOfComponents a) Hnc Hta eq_refl). cbn [fst snd].
  split; [reflexivity|]. split; [apply initial_all_zero|].
  split; [reflexivity|].
  destruct (quiet args); [rewrite app_nil_r|]; reflexivity.
Qed.

Lemma zero_tuples_witness :
  (vtu_file default_args /\ numeric no_tuples no_tuples /\
   shape_compatible no_tuples no_tuples /\
   GetNumberOfTuples no_tuples = 0 /\ 1 <= GetNumberOfComponents no_tuples /\
   nonneg (abs_err_thr default_args) /\ nonneg (rel_err_thr default_args)) /\
  exists n,
    final_norms (main default_args (Some (no_tuples, no_tuples))) = Some n /\
    all_zero (GetNumberOfComponents no_tuples) n /\
    status (main default_args (Some (no_tuples, no_tuples)))
    = Returned EXIT_SUCCESS /\
    cout (main default_args (Some (no_tuples, no_tuples))) =
      announcement default_args ++
      (if quiet default_args then [] else report n).
Proof.
  split; [repeat split; vm_compute; lia|].
  apply (zero_tuples default_args no_tuples no_tuples eq_refl
           (conj eq_refl eq_refl) (conj eq_refl eq_refl) eq_refl).
  - vm_compute; lia.
  - reflexivity.
  - reflexivity.
Defined.

(** * The rest of the program *)

(** ** The file name *)

Lemma length_append (s1 s2 : string) :
  String.length (s1 +:+ s2) = String.length s1 + String.length s2.
Proof. induction s1 as [|c s1 IH]; simpl; [reflexivity|rewrite IH; reflexivity]. Qed.

Lemma substring_all (s : string) : String.substring 0 (String.length s) s = s.
Proof. induction s as [|c s IH]; simpl; [reflexivity|rewrite IH; reflexivity]. Qed.

Lemma substring_append_r (p e : string) :
  String.substring (String.length p) (String.length e) (p +:+ e) = e.
Proof. induction p as [|c p IH]; simpl; [apply substring_all|exact IH]. Qed.

Lemma substring_split (s : string) : forall n,
  n <= String.length s ->
  s = String.substring 0 n s +:+ String.substring n (String.length s - n) s.
Proof.
  induction s as [|c s IH]; intros [|n] Hn; simpl in *; try reflexivity; try lia.
  - rewrite substring_all. reflexivity.
  - change (String c s = String c (String.substring 0 n s +:+
              String.substring n (String.length s - n) s)).
    f_equal. apply IH. lia.
Qed.

Lemma ends_with_inv (str ending : string) :
  stringEndsWith str ending = true -> exists start, str = start +:+ ending.
Proof.
  unfold stringEndsWith.
  destruct (Nat.ltb_spec (String.length str) (String.length ending)) as [Hl|Hl];
    [discriminate|].
  intros E. apply String.eqb_eq in E.
  exists (String.substring 0 (String.length str - String.length ending) str).
  pose proof (substring_split str
                (String.length str - String.length ending)) as H.
  replace (String.length str - (String.length str - String.length ending))
    with (String.length ending) in H by lia.
  rewrite E in H. apply H. lia.
Qed.

Lemma ends_with_intro (start ending : string) :
  stringEndsWith (start +:+ ending) ending = true.
Proof.
  unfold stringEndsWith. rewrite length_append.
  destruct (Nat.ltb_spec (String.length start + String.length ending)
                         (String.length ending)) as [Hl|Hl]; [lia|].
  replace (String.length start + String.length ending - String.length ending)
    with (String.length start) by lia.
  rewrite substring_append_r. apply String.eqb_refl.
Qed.

(** X1. [stringEndsWith str ending] holds exactly when [str] is some string
    followed by [ending]; a string shorter than the ending is rejected, so
    the unsigned difference of the lengths never wraps around. *)
Theorem stringEndsWith_suffix (str ending : string) :
  stringEndsWith str ending = true <-> exists start, str = start +:+ ending.
Proof.
  split; [apply ends_with_inv|]. intros [start ->]. apply ends_with_intro.
Qed.

(** ** Printing a vector *)

Lemma flat_map_seq_shift {A} (f : nat -> list A) n :
  flat_map f (seq 1 n) = flat_map (fun i => f (S i)) (seq 0 n).
Proof.
  rewrite <- seq_shift. induction (seq 0 n) as [|i l IH]; simpl;
    [reflexivity|rewrite IH; reflexivity].
Qed.

Lemma print_vector_cons x y v :
  exists rest,
    print_vector (y :: v) = Str "[" :: rest /\
    print_vector (x :: y :: v) = Str "[" :: Flt x :: Str ", " :: rest.
Proof.
  eexists. split; [reflexivity|].
  unfold print_vector. cbn [length Nat.sub seq flat_map nth app].
  rewrite Nat.sub_0_r, flat_map_seq_shift. reflexivity.
Qed.

(** X2. A vector is sent to the stream as ["[]"] when empty and otherwise
    as an opening bracket, the elements in order with a comma and a space
    between two consecutive ones and none after the last, and a closing
    bracket. *)
Theorem print_vector_layout (x : double) (rest : list double) :
  print_vector [] = [Str "[]"] /\
  print_vector (x :: rest) =
    [Str "["; Flt x] ++ flat_map (fun y => [Str ", "; Flt y]) rest
    ++ [Str "]"].
Proof.
  assert (L : forall rest x,
     print_vector (x :: rest) =
     [Str "["; Flt x] ++ flat_map (fun y => [Str ", "; Flt y]) rest
     ++ [Str "]"]).
  { clear. induction rest as [|y rest IH]; intros x; [reflexivity|].
    destruct (print_vector_cons x y rest) as (r & E1 & E2).
    rewrite E2. rewrite IH in E1. injection E1 as <-. reflexivity. }
  split; [reflexivity|apply L].
Qed.

(** ** Reading the arrays *)

(** The flag of the returned tuple tells whether the pointers are set. *)
Lemma read_flag files fa fb na nb ok a b err :
  readDataArraysFromFile files fa fb na nb = ReadReturned (ok, a, b) err ->
  if ok then is_Some a /\ is_Some b /\ err = []
  else a = None /\ b = None /\ length err = 1.
Proof.
  unfold readDataArraysFromFile, Execute.
  destruct (files fa) as [out_a|]; [|discriminate].
  destruct (HasArray (GetPointData out_a) na);
    [|destruct (HasArray (GetCellData out_a) na)].
  3:{ intros E; injection E as <- <- <- <-. auto. }
  all: match goal with |- context [match scalars_of ?p ?o ?n with _ => _ end] =>
         destruct (scalars_of p o n) as [a'|] end;
    [|intros E; injection E as <- <- <- <-; auto].
  all: destruct (String.eqb fb "");
    [destruct (String.eqb na nb); [discriminate|]
    |destruct (files fb) as [out_b|]; [|discriminate]].
  all: match goal with |- context [match scalars_of ?p ?o ?n with _ => _ end] =>
         destruct (scalars_of p o n) as [b'|] end;
    intros E; injection E as <- <- <- <-; eauto.
Qed.

(** X3. [main] never calls a member of a null array: whenever the reader
    returns with [read_successful] set, both pointers are set. *)
Theorem program_never_null (files : Files) (args : Args) :
  program files args <> NullDereferenced.
Proof.
  unfold program. destruct (stringEndsWith _ _); [|discriminate].
  destruct (readDataArraysFromFile _ _ _ _ _) as [[[ok a] b] err|err] eqn:E;
    [|discriminate].
  apply read_flag in E. destruct ok; [|discriminate].
  destruct E as ([a' ->] & [b' ->] & _). discriminate.
Qed.

(** X4. The reader succeeds exactly when the first file can be read, the
    first name is an array of its point data or else of its cell data, the
    scalars of that name in that storage are not null, the second file (the
    first one again when no second name is given, in which case the two
    array names must differ) can be read, and the scalars of the second
    name in the same kind of storage of that file are not null; these two
    arrays are returned and nothing is written to the error stream. *)
Theorem read_success files fa fb na nb a b err :
  readDataArraysFromFile files fa fb na nb
  = ReadReturned (true, Some a, Some b) err <->
  exists out_a out_b,
    files fa = Some out_a /\
    (if String.eqb fb "" then na <> nb /\ out_b = out_a
     else files fb = Some out_b) /\
    let point_data := HasArray (GetPointData out_a) na in
    (point_data = false -> HasArray (GetCellData out_a) na = true) /\
    scalars_of point_data out_a na = Some a /\
    scalars_of point_data out_b nb = Some b /\
    err = [].
Proof.
  unfold readDataArraysFromFile, Execute. split.
  - destruct (files fa) as [out_a|]; [|discriminate].
    destruct (HasArray (GetPointData out_a) na) eqn:Hp;
      [|destruct (HasArray (GetCellData out_a) na) eqn:Hc; [|discriminate]].
    all: match goal with
         |- context [match scalars_of ?p ?o ?n with _ => _ end] =>
           destruct (scalars_of p o n) as [a'|] eqn:Ea end;
      [|discriminate].
    all: destruct (String.eqb fb "") eqn:Eb;
      [destruct (String.eqb_spec na nb) as [En|En]; [discriminate|]
      |destruct (files fb) as [out_b|] eqn:Fb; [|discriminate]].
    all: match goal with
         |- context [match scalars_of ?p ?o ?n with _ => _ end] =>
           destruct (scalars_of p o n) as [b'|] eqn:Eb' end;
      [|discriminate].
    all: intros E; injection E as <- <- <-.
    all: eexists _, _; split; [reflexivity|]; rewrite ?Eb, ?Hp;
      repeat split; eauto; congruence.
  - intros (out_a & out_b & -> & Hb & Hc & Ea & Eb & ->). cbv zeta in *.
    destruct (HasArray (GetPointData out_a) na) eqn:Hp.
    + rewrite Ea. destruct (String.eqb fb "").
      * destruct Hb as [Hn ->]. apply String.eqb_neq in Hn. rewrite Hn, Eb.
        reflexivity.
      * rewrite Hb, Eb. reflexivity.
    + rewrite (Hc eq_refl), Ea. destruct (String.eqb fb "").
      * destruct Hb as [Hn ->]. apply String.eqb_neq in Hn. rewrite Hn, Eb.
        reflexivity.
      * rewrite Hb, Eb. reflexivity.
Qed.

Lemma read_same_array files fa na ok a b err :
  readDataArraysFromFile files fa "" na na = ReadReturned (ok, a, b) err ->
  ok = false.
Proof.
  unfold readDataArraysFromFile, Execute.
  destruct (files fa) as [out_a|]; [|discriminate].
  destruct (HasArray (GetPointData out_a) na);
    [|destruct (HasArray (GetCellData out_a) na)].
  3:{ intros E; injection E as <- _ _ _. reflexivity. }
  all: match goal with
       |- context [match scalars_of ?p ?o ?n with _ => _ end] =>
         destruct (scalars_of p o n) as [a'|] end;
    [|intros E; injection E as <- _ _ _; reflexivity].
  all: cbn [String.eqb]; rewrite String.eqb_refl; discriminate.
Qed.

(** X5. With no second file and the same array name twice, the process
    never gets to a comparison: if it is not aborted, [main] returns
    failure without printing to the output and without creating the
    vectors. *)
Theorem self_comparison_refused (files : Files) (args : Args) (run : Run) :
  vtk_input_b args = "" -> data_array_a args = data_array_b args ->
  program files args = Finished run ->
  status run = Returned EXIT_FAILURE /\ final_norms run = None /\ cout run = [].
Proof.
  intros Eb En. unfold program.
  destruct (stringEndsWith _ _) eqn:Ev.
  2:{ intros E; injection E as <-. unfold main. rewrite Ev. auto. }
  rewrite Eb, <- En.
  destruct (readDataArraysFromFile _ _ _ _ _) as [[[ok a] b] err|err] eqn:E;
    [|discriminate].
  rewrite (read_same_array _ _ _ _ _ _ _ E).
  intros E'; injection E' as <-. unfold main. rewrite Ev. auto.
Qed.

Lemma self_comparison_refused_witness :
  (vtk_input_b (one_file_args "r" "r") = "" /\
   data_array_a (one_file_args "r" "r") = data_array_b (one_file_args "r" "r")) /\
  exists run,
    program sample_files (one_file_args "r" "r") = Finished run /\
    status run = Returned EXIT_FAILURE /\ final_norms run = None /\
    cout run = [].
Proof.
  split; [split; reflexivity|]. eexists. split; [reflexivity|].
  apply (self_comparison_refused sample_files (one_file_args "r" "r") _
           eq_refl eq_refl eq_refl).
Defined.

Lemma scalars_of_same_point (g g' : vtkUnstructuredGrid) name :
  GetPointData g = GetPointData g' ->
  scalars_of true g name = scalars_of true g' name.
Proof. unfold scalars_of. intros ->. reflexivity. Qed.

(** X6. When the first array is found in the point data, the cell data of
    the files is never used: files that agree on their point data give the
    same result. *)
Theorem cell_data_unused files files' fa fb na nb out_a :
  same_point_data files files' ->
  files fa = Some out_a -> HasArray (GetPointData out_a) na = true ->
  readDataArraysFromFile files fa fb na nb
  = readDataArraysFromFile files' fa fb na nb.
Proof.
  intros Hs Fa Hp. unfold readDataArraysFromFile.
  pose proof (Hs fa) as Ha. rewrite Fa in Ha.
  destruct (files' fa) as [out_a'|]; [|discriminate]. injection Ha as Ha.
  rewrite Fa, <- Ha, Hp.
  rewrite (scalars_of_same_point out_a out_a' na Ha).
  destruct (scalars_of true out_a' na); [|reflexivity].
  destruct (String.eqb fb "").
  - rewrite (scalars_of_same_point out_a out_a' nb Ha). reflexivity.
  - pose proof (Hs fb) as Hb.
    destruct (files fb) as [out_b|], (files' fb) as [out_b'|];
      try discriminate; [|reflexivity].
    injection Hb as Hb. rewrite (scalars_of_same_point out_b out_b' nb Hb).
    reflexivity.
Qed.

Lemma cell_data_unused_witness :
  (same_point_data sample_files sample_files_other_cells /\
   (exists out_a, sample_files "a.vtu" = Some out_a /\
                  HasArray (GetPointData out_a) "p" = true)) /\
  readDataArraysFromFile sample_files "a.vtu" "" "p" "q"
  = readDataArraysFromFile sample_files_other_cells "a.vtu" "" "p" "q".
Proof.
  assert (Hs : same_point_data sample_files sample_files_other_cells).
  { intros name. unfold sample_files, sample_files_other_cells.
    destruct (String.eqb name "a.vtu"); reflexivity. }
  split; [split; [exact Hs|eexists; split; reflexivity]|].
  apply (cell_data_unused sample_files sample_files_other_cells
           "a.vtu" "" "p" "q" _ Hs eq_refl eq_refl).
Defined.

(** X7. When the name of the first file is not some string followed by
    [.vtu], the process returns failure with one message on the error
    stream, whatever the files are: no file is read and the process is not
    aborted. *)
Theorem file_type_check (files : Files) (args : Args) :
  (forall start, vtk_input_a args <> start +:+ ".vtu") ->
  program files args =
  Finished {| status := Returned EXIT_FAILURE;
              cout := [];
              cerr := [[Str "Invalid file type! Only .vtu files are supported.\n"]];
              final_norms := None |}.
Proof.
  intros H. unfold program, main.
  destruct (stringEndsWith (vtk_input_a args) ".vtu") eqn:E; [|reflexivity].
  apply ends_with_inv in E as [start E]. destruct (H start E).
Qed.

Lemma file_type_check_witness :
  (forall start, vtk_input_a vtk_args <> start +:+ ".vtu") /\
  program sample_files vtk_args =
  Finished {| status := Returned EXIT_FAILURE;
              cout := [];
              cerr := [[Str "Invalid file type! Only .vtu files are supported.\n"]];
              final_norms := None |}.
Proof.
  assert (H : forall start,
            vtk_input_a vtk_args <> start +:+ ".vtu").
  { intros start E.
    pose proof (ends_with_intro start ".vtu") as H. rewrite <- E in H.
    vm_compute in H. discriminate H. }
  split; [exact H|].
  apply (file_type_check sample_files vtk_args H).
Defined.

(** ** The accumulated norms, component by component *)

Lemma fold_alter_lookup {A B} (g : B -> A -> A) (key : B -> nat) (c : nat)
    (l : list B) : forall v : list A,
  fold_left (fun v x => alter (g x) (key x) v) l v !! c =
  fold_left (fun y x => g x y) (List.filter (fun x => Nat.eqb (key x) c) l)
  <$> v !! c.
Proof.
  induction l as [|x l IH]; intros v; simpl.
  - destruct (v !! c); reflexivity.
  - rewrite IH. destruct (Nat.eqb_spec (key x) c) as [E|E]; simpl.
    + rewrite E, list_lookup_alter_eq. destruct (v !! c); reflexivity.
    + rewrite list_lookup_alter_ne by exact E. reflexivity.
Qed.

Lemma filter_seq c n : forall s,
  List.filter (fun i => Nat.eqb i c) (seq s n)
  = if (s <=? c)%nat && (c <? s + n)%nat then [c] else [].
Proof.
  induction n as [|n IH]; intros s; simpl.
  - destruct (Nat.leb_spec s c), (Nat.ltb_spec c (s + 0)); simpl;
      try reflexivity; lia.
  - rewrite IH. destruct (Nat.eqb_spec s c) as [->|E].
    + destruct (Nat.leb_spec (S c) c), (Nat.leb_spec c c),
        (Nat.ltb_spec c (c + S n)); simpl; try reflexivity; lia.
    + destruct (Nat.leb_spec (S s) c), (Nat.leb_spec s c),
        (Nat.ltb_spec c (S s + n)), (Nat.ltb_spec c (s + S n)); simpl;
        try reflexivity; lia.
Qed.

Lemma filter_column nt nc c :
  c < nc ->
  List.filter (fun tc : nat * nat => Nat.eqb tc.2 c) (indices nt nc)
  = map (fun t => (t, c)) (seq 0 nt).
Proof.
  intros Hc. unfold indices. generalize (seq 0 nt) as ts.
  assert (R : forall t, List.filter (fun tc : nat * nat => Nat.eqb tc.2 c)
                          (map (pair t) (seq 0 nc)) = [(t, c)]).
  { intros t.
    assert (M : forall l : list nat,
              List.filter (fun tc : nat * nat => Nat.eqb tc.2 c) (map (pair t) l)
              = map (pair t) (List.filter (fun i => Nat.eqb i c) l)).
    { induction l as [|i l IH]; simpl; [reflexivity|].
      rewrite IH. destruct (Nat.eqb i c); reflexivity. }
    rewrite M, filter_seq.
    destruct (Nat.leb_spec 0 c), (Nat.ltb_spec c (0 + nc)); simpl;
      try reflexivity; lia. }
  induction ts as [|t ts IH]; simpl; [reflexivity|].
  rewrite List.filter_app, R, IH. reflexivity.
Qed.

Section Columns.
Context (args : Args) (a b : vtkDataArray).

(** A vector of the state is updated at the component of the step only. *)
Lemma fold_projection (p : Norms -> list double)
    (g : nat * nat -> double -> double) :
  (forall st tc, p (norms (step args a b st tc)) = alter (g tc) tc.2 (p (norms st))) ->
  forall l st,
    p (norms (fold_left (step args a b) l st))
    = fold_left (fun v tc => alter (g tc) tc.2 v) l (p (norms st)).
Proof.
  intros H. induction l as [|tc l IH]; intros st; simpl; [reflexivity|].
  rewrite IH, H. reflexivity.
Qed.

Lemma fold_column (g : double -> double -> double)
    (e : nat -> nat -> double) (c : nat) (ts : list nat) x :
  fold_left (fun y (tc : nat * nat) => g y (e tc.1 tc.2))
            (map (fun t => (t, c)) ts) x
  = fold_left g (map (fun t => e t c) ts) x.
Proof.
  revert x. induction ts as [|t ts IH]; intros x; simpl; [reflexivity|apply IH].
Qed.

Lemma column_entry (p : Norms -> list double)
    (g : double -> double -> double) (e : nat -> nat -> double) c :
  (forall st tc,
     p (norms (step args a b st tc))
     = alter (fun y => g y (e tc.1 tc.2)) tc.2 (p (norms st))) ->
  p (initial_norms (GetNumberOfComponents a))
  = replicate (GetNumberOfComponents a) zero ->
  c < GetNumberOfComponents a ->
  (p (norms (scan_point args a b
               (GetNumberOfTuples a * GetNumberOfComponents a))) !! c)
  = Some (fold_left g (map (fun t => e t c) (seq 0 (GetNumberOfTuples a)))
                    zero).
Proof.
  intros Hstep Hinit Hc. unfold scan_point.
  rewrite take_ge by (rewrite length_indices; lia).
  rewrite (fold_projection p (fun tc y => g y (e tc.1 tc.2)) Hstep).
  rewrite (fold_alter_lookup (fun tc y => g y (e tc.1 tc.2)) snd c).
  cbn [norms]. rewrite Hinit, lookup_replicate_2 by exact Hc.
  rewrite filter_column by exact Hc. simpl. f_equal.
  apply (fold_column g e).
Qed.
End Columns.

(** X8. For arrays of at most [INT_MAX] tuples, each entry of the six
    final vectors depends on its own component only: entry [c] is the sum,
    the sum of squares or the running maximum, from zero and in the order
    of the tuples, of the absolute or of the relative errors of component
    [c]. *)
Theorem norms_by_column args a b n c :
  vtu_file args -> numeric a b -> shape_compatible a b ->
  counter_in_range a ->
  final_norms (main args (Some (a, b))) = Some n ->
  c < GetNumberOfComponents a ->
  (abs_err_norm_l1 n !! c) = Some (sum_of (column_abs_errors a b c)) /\
  (abs_err_norm_2_2 n !! c)
    = Some (sum_of_squares (column_abs_errors a b c)) /\
  (abs_err_norm_max n !! c) = Some (maximum_of (column_abs_errors a b c)) /\
  (rel_err_norm_l1 n !! c) = Some (sum_of (column_rel_errors a b c)) /\
  (rel_err_norm_2_2 n !! c)
    = Some (sum_of_squares (column_rel_errors a b c)) /\
  (rel_err_norm_max n !! c) = Some (maximum_of (column_rel_errors a b c)).
Proof.
  intros Hf Hn Hs Hi En Hc.
  rewrite (main_final_norms _ _ _ Hf Hn Hs Hi) in En. injection En as <-.
  unfold sum_of, sum_of_squares, maximum_of, column_abs_errors, column_rel_errors.
  repeat split.
  - apply (column_entry args a b abs_err_norm_l1 add
             (fun t c => absolute_error (GetComponent a t c) (GetComponent b t c)));
      auto.
  - rewrite (column_entry args a b abs_err_norm_2_2 (fun x e => add x (mul e e))
               (fun t c => absolute_error (GetComponent a t c) (GetComponent b t c)));
      auto.
  - apply (column_entry args a b abs_err_norm_max max
             (fun t c => absolute_error (GetComponent a t c) (GetComponent b t c)));
      auto.
  - apply (column_entry args a b rel_err_norm_l1 add
             (fun t c => relative_error (GetComponent a t c) (GetComponent b t c)));
      auto.
  - rewrite (column_entry args a b rel_err_norm_2_2 (fun x e => add x (mul e e))
               (fun t c => relative_error (GetComponent a t c) (GetComponent b t c)));
      auto.
  - apply (column_entry args a b rel_err_norm_max max
             (fun t c => relative_error (GetComponent a t c) (GetComponent b t c)));
      auto.
Qed.

Lemma norms_by_column_witness :
  (vtu_file default_args /\ numeric sample_a sample_b /\
   shape_compatible sample_a sample_b /\ counter_in_range sample_a /\
   0 < GetNumberOfComponents sample_a) /\
  exists n,
    final_norms (main default_args (Some (sample_a, sample_b))) = Some n /\
    (abs_err_norm_l1 n !! 0) = Some (sum_of (column_abs_errors sample_a sample_b 0)).
Proof.
  assert (Hi : counter_in_range sample_a)
    by (unfold counter_in_range, INT_MAX; simpl; lia).
  split; [repeat split; try exact Hi; vm_compute; lia|].
  eexists. split; [reflexivity|].
  apply (norms_by_column default_args sample_a sample_b _ 0 eq_refl
           (conj eq_refl eq_refl) (conj eq_refl eq_refl) Hi eq_refl).
  vm_compute; lia.
Defined.

(** ** More on the order of doubles *)

Lemma ltb_leb_trans x y z : ltb x y = true -> leb y z = true -> ltb x z = true.
Proof.
  unfold ltb, leb, SFltb, SFleb.
  destruct x as [sx|sx| |sx mx ex], y as [sy|sy| |sy my ey], z as [sz|sz| |sz mz ez];
    simpl; try congruence;
    try (destruct sx; simpl; congruence);
    try (destruct sy; simpl; congruence);
    try (destruct sz; simpl; congruence);
    try (destruct sx, sy; simpl; congruence);
    try (destruct sx, sz; simpl; congruence);
    try (destruct sy, sz; simpl; congruence);
    try (destruct sx, sy, sz; simpl; congruence).
  all: destruct sx, sy, sz; simpl; try congruence; order_cases.
Qed.

Lemma leb_ltb_trans x y z : leb x y = true -> ltb y z = true -> ltb x z = true.
Proof.
  unfold ltb, leb, SFltb, SFleb.
  destruct x as [sx|sx| |sx mx ex], y as [sy|sy| |sy my ey], z as [sz|sz| |sz mz ez];
    simpl; try congruence;
    try (destruct sx; simpl; congruence);
    try (destruct sy; simpl; congruence);
    try (destruct sz; simpl; congruence);
    try (destruct sx, sy; simpl; congruence);
    try (destruct sx, sz; simpl; congruence);
    try (destruct sy, sz; simpl; congruence);
    try (destruct sx, sy, sz; simpl; congruence).
  all: destruct sx, sy, sz; simpl; try congruence; order_cases.
Qed.

Lemma ltb_signed_r x y : ltb x y = true -> exists s, signed_as s y.
Proof.
  unfold ltb, SFltb. destruct x, y; simpl; try discriminate; eauto.
Qed.

Lemma negative_below_signed t m :
  ltb t zero = true -> signed_as false m -> ltb t m = true.
Proof.
  intros Ht Hm. eapply ltb_leb_trans; [exact Ht|apply signed_nonneg, Hm].
Qed.

(** [std::max] is at least its second operand, unless that is NaN. *)
Lemma max_ge_r s x e :
  signed_as false x -> signed_as s e -> leb e (max x e) = true.
Proof.
  intros Hx He. unfold max. destruct (ltb x e) eqn:E.
  - eapply leb_refl, He.
  - eapply not_ltb_leb; eassumption.
Qed.

(** ** An element beyond both thresholds *)

Section Exceeding.
Context (args : Args) (a b : vtkDataArray).

Lemma fold_max_signed l st :
  max_signed_inv st -> max_signed_inv (fold_left (step args a b) l st).
Proof.
  intros H. apply fold_step_invariant; [exact H|].
  intros st' tc _. apply step_max_signed.
Qed.

Lemma fold_max_mono l : forall st,
  max_signed_inv st ->
  pointwise_le (abs_err_norm_max (norms st))
               (abs_err_norm_max (norms (fold_left (step args a b) l st))) /\
  pointwise_le (rel_err_norm_max (norms st))
               (rel_err_norm_max (norms (fold_left (step args a b) l st))).
Proof.
  induction l as [|tc l IH]; intros st H; simpl.
  - destruct H. split; apply pointwise_le_refl; assumption.
  - destruct (step_max_mono args a b st tc H) as [Ha Hr].
    destruct (IH _ (step_max_signed args a b st tc H)) as [Ha' Hr'].
    split; eapply pointwise_le_trans; eassumption.
Qed.

Lemma pointwise_le_lookup v w c x :
  pointwise_le v w -> v !! c = Some x ->
  exists y, w !! c = Some y /\ leb x y = true.
Proof. intros H Hx. eapply Forall2_lookup_l in H; eauto. Qed.

(** After the step of element (t, c) the maxima of component c are at least
    the errors of that element, and stay so. *)
Lemma maxima_bound_errors t c :
  t < GetNumberOfTuples a -> c < GetNumberOfComponents a ->
  let n := norms (scan_point args a b
                    (GetNumberOfTuples a * GetNumberOfComponents a)) in
  let abs_err := absolute_error (GetComponent a t c) (GetComponent b t c) in
  let rel_err := relative_error (GetComponent a t c) (GetComponent b t c) in
  exists m_abs m_rel,
    abs_err_norm_max n !! c = Some m_abs /\
    rel_err_norm_max n !! c = Some m_rel /\
    (forall s, signed_as s abs_err -> leb abs_err m_abs = true) /\
    (forall s, signed_as s rel_err -> leb rel_err m_rel = true).
Proof.
  intros Ht Hc n abs_err rel_err. subst n.
  assert (Hin : In (t, c) (indices (GetNumberOfTuples a) (GetNumberOfComponents a)))
    by (apply In_indices; auto).
  apply in_split in Hin as (l1 & l2 & E).
  unfold scan_point. rewrite take_ge by (rewrite length_indices; lia).
  rewrite E, fold_left_app. cbn [fold_left].
  set (st0 := {| norms := initial_norms (GetNumberOfComponents a); printed := [] |}).
  set (st1 := fold_left (step args a b) l1 st0).
  assert (I1 : max_signed_inv st1)
    by (apply fold_max_signed, initial_max_signed).
  assert (S1 : sized (GetNumberOfComponents a) st1).
  { apply fold_step_invariant; [apply initial_sized|].
    intros st' tc _. apply step_sized. }
  unfold sized, vectors in S1.
  apply Forall_cons in S1 as [_ S1]. apply Forall_cons in S1 as [_ S1].
  apply Forall_cons in S1 as [La S1]. apply Forall_cons in S1 as [_ S1].
  apply Forall_cons in S1 as [_ S1]. apply Forall_cons in S1 as [Lr _].
  destruct (lookup_lt_is_Some_2 (abs_err_norm_max (norms st1)) c) as [xa Xa];
    [lia|].
  destruct (lookup_lt_is_Some_2 (rel_err_norm_max (norms st1)) c) as [xr Xr];
    [lia|].
  set (st2 := step args a b st1 (t, c)).
  assert (I2 : max_signed_inv st2) by apply step_max_signed, I1.
  assert (Ya : abs_err_norm_max (norms st2) !! c = Some (max xa abs_err)).
  { unfold st2, step, loop_body. project_norms.
    rewrite list_lookup_alter_eq, Xa. reflexivity. }
  assert (Yr : rel_err_norm_max (norms st2) !! c = Some (max xr rel_err)).
  { unfold st2, step, loop_body. project_norms.
    rewrite list_lookup_alter_eq, Xr. reflexivity. }
  destruct (fold_max_mono l2 st2 I2) as [Ma Mr].
  destruct (pointwise_le_lookup _ _ _ _ Ma Ya) as (ma & Za & Lea).
  destruct (pointwise_le_lookup _ _ _ _ Mr Yr) as (mr & Zr & Ler).
  destruct I1 as [I1a I1r].
  exists ma, mr. repeat split; try assumption.
  - intros s Hs. eapply leb_trans; [|exact Lea]. eapply max_ge_r; [|exact Hs].
    apply (Forall_lookup_1 _ _ _ _ I1a Xa).
  - intros s Hs. eapply leb_trans; [|exact Ler]. eapply max_ge_r; [|exact Hs].
    apply (Forall_lookup_1 _ _ _ _ I1r Xr).
Qed.
End Exceeding.

(** With at least one component both vectors of maxima have a maximum. *)
Lemma final_maxima args a b :
  1 <= GetNumberOfComponents a ->
  let n := norms (scan_point args a b
                    (GetNumberOfTuples a * GetNumberOfComponents a)) in
  exists M_abs M_rel,
    is_maximum M_abs (abs_err_norm_max n) /\
    is_maximum M_rel (rel_err_norm_max n) /\
    signed_as false M_abs /\ signed_as false M_rel.
Proof.
  intros Hnc n. subst n.
  set (k := GetNumberOfTuples a * GetNumberOfComponents a).
  pose proof (scan_point_sized args a b k) as Hsz.
  unfold sized, vectors in Hsz.
  apply Forall_cons in Hsz as [_ Hsz]. apply Forall_cons in Hsz as [_ Hsz].
  apply Forall_cons in Hsz as [La Hsz]. apply Forall_cons in Hsz as [_ Hsz].
  apply Forall_cons in Hsz as [_ Hsz]. apply Forall_cons in Hsz as [Lr _].
  destruct (scan_point_max_signed args a b k) as [Sa Sr].
  destruct (max_element_nonempty
              (abs_err_norm_max (norms (scan_point args a b k))))
    as [ma Ea]; [lia|].
  destruct (max_element_nonempty
              (rel_err_norm_max (norms (scan_point args a b k))))
    as [mr Er]; [lia|].
  pose proof (max_element_is_maximum _ _ Sa Ea) as Ha.
  pose proof (max_element_is_maximum _ _ Sr Er) as Hr.
  exists ma, mr. repeat split; try apply Ha; try apply Hr.
  - destruct Ha as [[i Hi] _]. apply (Forall_lookup_1 _ _ _ _ Sa Hi).
  - destruct Hr as [[i Hi] _]. apply (Forall_lookup_1 _ _ _ _ Sr Hi).
Qed.

Lemma status_by_maxima args a b M_abs M_rel :
  vtu_file args -> numeric a b -> shape_compatible a b ->
  counter_in_range a ->
  let n := norms (scan_point args a b
                    (GetNumberOfTuples a * GetNumberOfComponents a)) in
  is_maximum M_abs (abs_err_norm_max n) ->
  is_maximum M_rel (rel_err_norm_max n) ->
  status (main args (Some (a, b))) =
  Returned (if gtb M_abs (abs_err_thr args) && gtb M_rel (rel_err_thr args)
            then EXIT_FAILURE else EXIT_SUCCESS).
Proof.
  intros Hf Hn Hs Hi n Ha Hr. subst n.
  destruct (main_status _ _ _ Hf Hn Hs Hi) as [out ->].
  destruct (scan_point_max_signed args a b
              (GetNumberOfTuples a * GetNumberOfComponents a)) as [Sa Sr].
  apply decide_exit_maxima; assumption.
Qed.

Lemma is_maximum_ge m v c x :
  is_maximum m v -> v !! c = Some x -> leb x m = true.
Proof. intros [_ H] Hx. apply (Forall_lookup_1 _ _ _ _ H Hx). Qed.

(** X9. If some element of arrays of at most [INT_MAX] tuples exceeds both
    thresholds, the run fails, with or without [verbose]. *)
Theorem exceeding_element_fails args a b t c :
  vtu_file args -> numeric a b -> shape_compatible a b ->
  counter_in_range a ->
  t < GetNumberOfTuples a -> c < GetNumberOfComponents a ->
  gtb (absolute_error (GetComponent a t c) (GetComponent b t c))
      (abs_err_thr args) = true ->
  gtb (relative_error (GetComponent a t c) (GetComponent b t c))
      (rel_err_thr args) = true ->
  status (main args (Some (a, b))) = Returned EXIT_FAILURE.
Proof.
  intros Hf Hn Hs Hi Ht Hc Ga Gr.
  destruct (final_maxima args a b) as (Ma & Mr & Ha & Hr & _); [lia|].
  rewrite (status_by_maxima _ _ _ _ _ Hf Hn Hs Hi Ha Hr).
  destruct (maxima_bound_errors args a b t c Ht Hc)
    as (ma & mr & La & Lr & Ba & Br).
  destruct (ltb_signed_r _ _ Ga) as [sa Sa].
  destruct (ltb_signed_r _ _ Gr) as [sr Sr].
  assert (Ea : gtb Ma (abs_err_thr args) = true).
  { unfold gtb in *. eapply ltb_leb_trans; [exact Ga|].
    eapply leb_trans; [apply (Ba _ Sa)|]. eapply is_maximum_ge; eassumption. }
  assert (Er : gtb Mr (rel_err_thr args) = true).
  { unfold gtb in *. eapply ltb_leb_trans; [exact Gr|].
    eapply leb_trans; [apply (Br _ Sr)|]. eapply is_maximum_ge; eassumption. }
  rewrite Ea, Er. reflexivity.
Qed.

Lemma exceeding_element_fails_witness :
  (vtu_file default_args /\ numeric sample_a sample_b /\
   shape_compatible sample_a sample_b /\ counter_in_range sample_a /\
   0 < GetNumberOfTuples sample_a /\ 0 < GetNumberOfComponents sample_a /\
   gtb (absolute_error (GetComponent sample_a 0 0) (GetComponent sample_b 0 0))
       (abs_err_thr default_args) = true /\
   gtb (relative_error (GetComponent sample_a 0 0) (GetComponent sample_b 0 0))
       (rel_err_thr default_args) = true) /\
  status (main default_args (Some (sample_a, sample_b))) = Returned EXIT_FAILURE.
Proof.
  assert (Hi : counter_in_range sample_a)
    by (unfold counter_in_range, INT_MAX; simpl; lia).
  split; [repeat split; try exact Hi; vm_compute; lia|].
  apply (exceeding_element_fails default_args sample_a sample_b 0 0 eq_refl
           (conj eq_refl eq_refl) (conj eq_refl eq_refl) Hi);
    vm_compute; try lia; reflexivity.
Defined.

(** X10. In arrays of at most [INT_MAX] tuples, an element with an infinite
    relative error (a zero against another value) leaves the final maximum
    of its component infinite, whatever the thresholds are; if the relative
    threshold is below infinity the run then fails exactly when the largest
    absolute error exceeds the absolute threshold. *)
Theorem infinite_relative_error args a b t c M_abs n :
  vtu_file args -> numeric a b -> shape_compatible a b ->
  counter_in_range a ->
  t < GetNumberOfTuples a -> c < GetNumberOfComponents a ->
  relative_error (GetComponent a t c) (GetComponent b t c) = infinity ->
  final_norms (main args (Some (a, b))) = Some n ->
  is_maximum M_abs (abs_err_norm_max n) ->
  (rel_err_norm_max n !! c) = Some infinity /\
  (gtb infinity (rel_err_thr args) = true ->
   (status (main args (Some (a, b))) = Returned EXIT_FAILURE <->
    gtb M_abs (abs_err_thr args) = true)).
Proof.
  intros Hf Hn Hs Hi Ht Hc Ei En Ha.
  rewrite (main_final_norms _ _ _ Hf Hn Hs Hi) in En. injection En as <-.
  destruct (final_maxima args a b) as (Ma & Mr & _ & Hr & _); [lia|].
  rewrite (status_by_maxima _ _ _ _ _ Hf Hn Hs Hi Ha Hr).
  destruct (maxima_bound_errors args a b t c Ht Hc)
    as (ma & mr & La & Lr & _ & Br).
  rewrite Ei in Br. specialize (Br false eq_refl).
  assert (Emr : mr = infinity).
  { destruct mr as [s|s| |s m e]; try discriminate Br.
    destruct s; [discriminate Br|reflexivity]. }
  subst mr. split; [exact Lr|]. intros Gi.
  assert (Er : gtb Mr (rel_err_thr args) = true).
  { unfold gtb in *. eapply ltb_leb_trans; [exact Gi|].
    eapply is_maximum_ge; eassumption. }
  rewrite Er, andb_true_r.
  destruct (gtb M_abs (abs_err_thr args)); intuition congruence.
Qed.

Lemma infinite_relative_error_witness :
  (vtu_file default_args /\ numeric nought one /\ shape_compatible nought one /\
   counter_in_range nought /\
   relative_error (GetComponent nought 0 0) (GetComponent one 0 0) = infinity /\
   gtb infinity (rel_err_thr default_args) = true) /\
  (exists n,
     final_norms (main default_args (Some (nought, one))) = Some n /\
     (rel_err_norm_max n !! 0) = Some infinity) /\
  (status (main default_args (Some (nought, one))) = Returned EXIT_FAILURE <->
   gtb (of_Z 1) (abs_err_thr default_args) = true).
Proof.
  assert (Hi : counter_in_range nought)
    by (unfold counter_in_range, INT_MAX; simpl; lia).
  split; [repeat split; exact Hi|].
  assert (Hm : is_maximum (of_Z 1) [of_Z 1])
    by (split; [exists 0; reflexivity|repeat constructor]).
  destruct (fun H0 H1 =>
              infinite_relative_error default_args nought one 0 0 (of_Z 1) _
                eq_refl (conj eq_refl eq_refl) (conj eq_refl eq_refl) Hi
                H0 H1 eq_refl eq_refl Hm) as [Hinf Hiff].
  - vm_compute; lia.
  - vm_compute; lia.
  - split; [eexists; split; [reflexivity|exact Hinf]|].
    apply Hiff. reflexivity.
Defined.

(** X11. With both thresholds negative every comparison of arrays with at
    most [INT_MAX] tuples and at least one component fails, even that of an
    array with itself. *)
Theorem negative_thresholds_fail args a b :
  vtu_file args -> numeric a b -> shape_compatible a b ->
  counter_in_range a -> 1 <= GetNumberOfComponents a ->
  ltb (abs_err_thr args) zero = true -> ltb (rel_err_thr args) zero = true ->
  status (main args (Some (a, b))) = Returned EXIT_FAILURE.
Proof.
  intros Hf Hn Hs Hi Hnc Ta Tr.
  destruct (final_maxima args a b Hnc) as (Ma & Mr & Ha & Hr & Sa & Sr).
  rewrite (status_by_maxima _ _ _ _ _ Hf Hn Hs Hi Ha Hr).
  change (gtb Ma (abs_err_thr args)) with (ltb (abs_err_thr args) Ma).
  change (gtb Mr (rel_err_thr args)) with (ltb (rel_err_thr args) Mr).
  rewrite (negative_below_signed _ _ Ta Sa), (negative_below_signed _ _ Tr Sr).
  reflexivity.
Qed.

Lemma negative_thresholds_fail_witness :
  (vtu_file (set_thresholds (of_Z (-1)) (of_Z (-1)) default_args) /\
   numeric sample_a sample_a /\ shape_compatible sample_a sample_a /\
   counter_in_range sample_a /\ 1 <= GetNumberOfComponents sample_a /\
   ltb (of_Z (-1)) zero = true) /\
  status (main (set_thresholds (of_Z (-1)) (of_Z (-1)) default_args)
               (Some (sample_a, sample_a))) = Returned EXIT_FAILURE.
Proof.
  assert (Hi : counter_in_range sample_a)
    by (unfold counter_in_range, INT_MAX; simpl; lia).
  split; [repeat split; try exact Hi; vm_compute; lia|].
  apply (negative_thresholds_fail
           (set_thresholds (of_Z (-1)) (of_Z (-1)) default_args)
           sample_a sample_a eq_refl (conj eq_refl eq_refl)
           (conj eq_refl eq_refl) Hi); vm_compute; try lia; reflexivity.
Defined.

(** ** What the flags and the thresholds change *)

Lemma decide_exit_verdict args n out : (decide_exit args n out).1 = verdict args n.
Proof.
  unfold verdict, decide_exit.
  destruct (max_element (abs_err_norm_max n)); [|reflexivity].
  destruct (gtb _ _); [|reflexivity].
  destruct (max_element (rel_err_norm_max n)); [|reflexivity].
  destruct (gtb _ _); reflexivity.
Qed.

Lemma decide_exit_printed args n out :
  (decide_exit args n out).2 =
  out ++ (if quiet args then []
          else if failed (verdict args n) then [failure_message] else []).
Proof.
  unfold verdict, decide_exit.
  destruct (max_element (abs_err_norm_max n));
    [|destruct (quiet args); rewrite app_nil_r; reflexivity].
  destruct (gtb _ _);
    [|destruct (quiet args); rewrite app_nil_r; reflexivity].
  destruct (max_element (rel_err_norm_max n));
    [|destruct (quiet args); rewrite app_nil_r; reflexivity].
  destruct (gtb _ _); simpl;
    destruct (quiet args); rewrite ?app_nil_r; reflexivity.
Qed.

Lemma norms_fold_args args args' a b l : forall st st',
  norms st = norms st' ->
  norms (fold_left (step args a b) l st)
  = norms (fold_left (step args' a b) l st').
Proof.
  induction l as [|tc l IH]; intros st st' E; simpl; [exact E|].
  apply IH. unfold step, loop_body; simpl. rewrite E. reflexivity.
Qed.

Lemma scan_norms_args args args' a b nt nc out out' :
  norms (scan args a b nt nc {| norms := initial_norms nc; printed := out |})
  = norms (scan args' a b nt nc {| norms := initial_norms nc; printed := out' |}).
Proof. rewrite !scan_flat. apply norms_fold_args. reflexivity. Qed.

(** [main] on two arrays that pass the checks and whose tuples the counter
    can count, in one equation. *)
Lemma main_compared args a b :
  vtu_file args -> numeric a b -> shape_compatible a b ->
  counter_in_range a ->
  let n := norms (scan_point args a b
                    (GetNumberOfTuples a * GetNumberOfComponents a)) in
  main args (Some (a, b)) =
  {| status := verdict args n;
     cout := announcement args
             ++ flat_map (diagnostics_of args a b)
                  (indices (GetNumberOfTuples a) (GetNumberOfComponents a))
             ++ (if quiet args then []
                 else report n ++
                      (if failed (verdict args n) then [failure_message]
                       else []));
     cerr := [];
     final_norms := Some n |}.
Proof.
  intros Hf Hn Hs Hi n. subst n.
  rewrite (main_accepted _ _ _ Hf Hn Hs Hi). cbv zeta.
  rewrite decide_exit_verdict, decide_exit_printed, scan_norms.
  rewrite scan_flat, printed_fold. cbn [printed].
  f_equal. destruct (quiet args); rewrite <- ?app_assoc; reflexivity.
Qed.

(** [main] on two arrays that pass the checks and have more tuples than the
    counter can count: the scan of the first [INT_MAX + 1] tuples, and then
    the overflow. *)
Lemma main_overflowed args a b :
  vtu_file args -> numeric a b -> shape_compatible a b ->
  ~ counter_in_range a ->
  let m := tuples_scanned (GetNumberOfTuples a) in
  main args (Some (a, b)) =
  {| status := Undefined;
     cout := announcement args
             ++ flat_map (diagnostics_of args a b)
                  (indices m (GetNumberOfComponents a));
     cerr := [];
     final_norms :=
       Some (norms (scan_point args a b (m * GetNumberOfComponents a))) |}.
Proof.
  intros Hf Hn Hs Hi m. subst m.
  rewrite (main_scans _ _ _ Hf Hn Hs). cbv zeta.
  rewrite (counter_out_of_range_overflows a Hi), scan_norms_scanned.
  rewrite scan_flat, printed_fold. reflexivity.
Qed.

Lemma verdict_flags q v args n : verdict (set_flags q v args) n = verdict args n.
Proof.
  unfold verdict, decide_exit. cbn [abs_err_thr rel_err_thr set_flags].
  destruct (max_element (abs_err_norm_max n)); [|reflexivity].
  destruct (gtb _ _); [|reflexivity].
  destruct (max_element (rel_err_norm_max n)); [|reflexivity].
  destruct (gtb _ _); reflexivity.
Qed.

(** The checks of [main] before the scan, with what each failure leaves. *)
Lemma main_cases args read :
  (exists a b, read = Some (a, b) /\
               vtu_file args /\ numeric a b /\ shape_compatible a b) \/
  (status (main args read) = Returned EXIT_FAILURE /\
   final_norms (main args read) = None /\
   (cout (main args read) = [] \/ cout (main args read) = announcement args)).
Proof.
  unfold main, vtu_file, numeric, shape_compatible.
  destruct (stringEndsWith _ _); [|right; cbn [status final_norms cout]; auto].
  destruct read as [[a b]|]; [|right; cbn [status final_norms cout]; auto].
  fold (announcement args).
  destruct (IsNumeric a) eqn:Ea; [|right; cbn [status final_norms cout]; auto].
  destruct (IsNumeric b) eqn:Eb; [|right; cbn [status final_norms cout]; auto].
  destruct (Nat.eqb_spec (GetNumberOfTuples a) (GetNumberOfTuples b));
    [|right; cbn [status final_norms cout]; auto].
  destruct (Nat.eqb_spec (GetNumberOfComponents a) (GetNumberOfComponents b));
    [|right; cbn [status final_norms cout]; auto].
  cbn [negb]. left. exists a, b. auto 10.
Qed.

Ltac reject_with H :=
  unfold main; cbn [vtk_input_a set_flags set_thresholds quiet verbose
                    abs_err_thr rel_err_thr];
  rewrite ?H; cbn [negb]; auto.

(** X12. The flags [quiet] and [verbose] change neither the return value
    nor the vectors nor the error stream of [main]. *)
Theorem flags_keep_verdict (q v : bool) (args : Args)
    (read : option (vtkDataArray * vtkDataArray)) :
  status (main (set_flags q v args) read) = status (main args read) /\
  final_norms (main (set_flags q v args) read) = final_norms (main args read) /\
  cerr (main (set_flags q v args) read) = cerr (main args read).
Proof.
  destruct (stringEndsWith (vtk_input_a args) ".vtu") eqn:Hf;
    [|reject_with Hf].
  destruct read as [[a b]|]; [|reject_with Hf].
  destruct (IsNumeric a) eqn:Ea; [|unfold main; rewrite Ea; reject_with Hf].
  destruct (IsNumeric b) eqn:Eb;
    [|unfold main; rewrite Ea, Eb; reject_with Hf].
  destruct (Nat.eqb_spec (GetNumberOfTuples a) (GetNumberOfTuples b)) as [Et|Et];
    [|apply Nat.eqb_neq in Et; unfold main; rewrite Ea, Eb, Et; reject_with Hf].
  destruct (Nat.eqb_spec (GetNumberOfComponents a) (GetNumberOfComponents b))
    as [Ec|Ec];
    [|apply Nat.eqb_neq in Ec; unfold main;
      rewrite Ea, Eb, Et, Nat.eqb_refl, Ec; reject_with Hf].
  destruct (counter_in_range_cases a) as [Hi|Hi].
  - rewrite (main_compared args a b Hf (conj Ea Eb) (conj Et Ec) Hi).
    rewrite (main_compared (set_flags q v args) a b Hf (conj Ea Eb)
               (conj Et Ec) Hi).
    cbv zeta. cbn [status final_norms cerr]. rewrite verdict_flags.
    unfold scan_point.
    rewrite (norms_fold_args (set_flags q v args) args a b _ _ _ eq_refl).
    auto.
  - rewrite (main_overflowed args a b Hf (conj Ea Eb) (conj Et Ec) Hi).
    rewrite (main_overflowed (set_flags q v args) a b Hf (conj Ea Eb)
               (conj Et Ec) Hi).
    cbv zeta. cbn [status final_norms cerr]. unfold scan_point.
    rewrite (norms_fold_args (set_flags q v args) args a b _ _ _ eq_refl).
    auto.
Qed.

Lemma verdict_thresholds args n abs_thr rel_thr :
  leb (abs_err_thr args) abs_thr = true ->
  leb (rel_err_thr args) rel_thr = true ->
  verdict (set_thresholds abs_thr rel_thr args) n = Returned EXIT_FAILURE ->
  verdict args n = Returned EXIT_FAILURE.
Proof.
  intros La Lr. unfold verdict, decide_exit.
  cbn [abs_err_thr rel_err_thr set_thresholds].
  destruct (max_element (abs_err_norm_max n)) as [ma|]; [|discriminate].
  destruct (gtb ma abs_thr) eqn:Ga; [|discriminate].
  change (gtb ma (abs_err_thr args)) with (ltb (abs_err_thr args) ma).
  rewrite (leb_ltb_trans _ _ _ La Ga).
  destruct (max_element (rel_err_norm_max n)) as [mr|]; [|discriminate].
  destruct (gtb mr rel_thr) eqn:Gr; [|discriminate].
  change (gtb mr (rel_err_thr args)) with (ltb (rel_err_thr args) mr).
  rewrite (leb_ltb_trans _ _ _ Lr Gr). reflexivity.
Qed.

(** X13. Raising the thresholds never turns a passing run into a failing
    one: a run that fails with larger thresholds fails with the smaller
    ones. *)
Theorem larger_thresholds_keep_pass (abs_thr rel_thr : double) (args : Args)
    (read : option (vtkDataArray * vtkDataArray)) :
  leb (abs_err_thr args) abs_thr = true ->
  leb (rel_err_thr args) rel_thr = true ->
  status (main (set_thresholds abs_thr rel_thr args) read)
  = Returned EXIT_FAILURE ->
  status (main args read) = Returned EXIT_FAILURE.
Proof.
  intros La Lr.
  destruct (stringEndsWith (vtk_input_a args) ".vtu") eqn:Hf;
    [|reject_with Hf].
  destruct read as [[a b]|]; [|reject_with Hf].
  destruct (IsNumeric a) eqn:Ea; [|unfold main; rewrite Ea; reject_with Hf].
  destruct (IsNumeric b) eqn:Eb;
    [|unfold main; rewrite Ea, Eb; reject_with Hf].
  destruct (Nat.eqb_spec (GetNumberOfTuples a) (GetNumberOfTuples b)) as [Et|Et];
    [|apply Nat.eqb_neq in Et; unfold main; rewrite Ea, Eb, Et; reject_with Hf].
  destruct (Nat.eqb_spec (GetNumberOfComponents a) (GetNumberOfComponents b))
    as [Ec|Ec];
    [|apply Nat.eqb_neq in Ec; unfold main;
      rewrite Ea, Eb, Et, Nat.eqb_refl, Ec; reject_with Hf].
  destruct (counter_in_range_cases a) as [Hi|Hi].
  - rewrite (main_compared args a b Hf (conj Ea Eb) (conj Et Ec) Hi).
    rewrite (main_compared (set_thresholds abs_thr rel_thr args) a b Hf
               (conj Ea Eb) (conj Et Ec) Hi).
    cbv zeta. cbn [status]. unfold scan_point.
    rewrite (norms_fold_args (set_thresholds abs_thr rel_thr args) args a b
               _ _ _ eq_refl).
    apply verdict_thresholds; assumption.
  - rewrite (main_overflowed (set_thresholds abs_thr rel_thr args) a b Hf
               (conj Ea Eb) (conj Et Ec) Hi).
    cbv zeta. cbn [status]. discriminate.
Qed.

Lemma larger_thresholds_keep_pass_witness :
  (leb (abs_err_thr default_args) (of_Z 1) = true /\
   leb (rel_err_thr default_args) (of_Z 1) = true /\
   status (main (set_thresholds (of_Z 1) (of_Z 1) default_args)
                (Some (sample_a, sample_b))) = Returned EXIT_FAILURE) /\
  status (main default_args (Some (sample_a, sample_b))) = Returned EXIT_FAILURE.
Proof.
  split; [repeat split|].
  apply (larger_thresholds_keep_pass (of_Z 1) (of_Z 1) default_args
           (Some (sample_a, sample_b)) eq_refl eq_refl eq_refl).
Defined.

Lemma no_diagnostics args a b l :
  verbose args = false -> flat_map (diagnostics_of args a b) l = [].
Proof.
  intros Hv. induction l as [|tc l IH]; simpl; [reflexivity|].
  rewrite IH. unfold diagnostics_of. rewrite Hv, andb_false_r. reflexivity.
Qed.

(** X14. With [quiet] and without [verbose], [main] prints nothing to the
    output, whatever it is given. *)
Theorem quiet_prints_nothing (args : Args)
    (read : option (vtkDataArray * vtkDataArray)) :
  quiet args = true -> verbose args = false -> cout (main args read) = [].
Proof.
  intros Hq Hv.
  destruct (main_cases args read) as [(a & b & -> & Hf & Hn & Hs)|(_ & _ & H)].
  - destruct (counter_in_range_cases a) as [Hi|Hi].
    + rewrite (main_compared args a b Hf Hn Hs Hi). cbv zeta. cbn [cout].
      unfold announcement.
      rewrite Hq, (no_diagnostics _ _ _ _ Hv). reflexivity.
    + rewrite (main_overflowed args a b Hf Hn Hs Hi). cbv zeta. cbn [cout].
      unfold announcement.
      rewrite Hq, (no_diagnostics _ _ _ _ Hv). reflexivity.
  - destruct H as [H|H]; rewrite H; [reflexivity|].
    unfold announcement. rewrite Hq. reflexivity.
Qed.

Lemma quiet_prints_nothing_witness :
  (quiet (set_flags true false default_args) = true /\
   verbose (set_flags true false default_args) = false) /\
  cout (main (set_flags true false default_args) (Some (sample_a, sample_b)))
  = [].
Proof.
  split; [split; reflexivity|].
  apply (quiet_prints_nothing (set_flags true false default_args)
           (Some (sample_a, sample_b)) eq_refl eq_refl).
Defined.

(** X15. The output of a comparison that comes to its end (at most
    [INT_MAX] tuples, at least one component) is, in this order: the
    announcement unless [quiet]; the diagnostics of the elements in the
    order of the scan; and unless [quiet] the ten lines of the report,
    followed by the failure message if the run fails. Such a run returns an
    exit code. *)
Theorem stdout_layout args a b :
  vtu_file args -> numeric a b -> shape_compatible a b ->
  counter_in_range a -> 1 <= GetNumberOfComponents a ->
  (exists code, status (main args (Some (a, b))) = Returned code) /\
  exists n,
    final_norms (main args (Some (a, b))) = Some n /\
    cout (main args (Some (a, b))) =
      announcement args
      ++ flat_map (diagnostics_of args a b)
           (indices (GetNumberOfTuples a) (GetNumberOfComponents a))
      ++ (if quiet args then []
          else report n ++
               (if failed (status (main args (Some (a, b))))
                then [failure_message] else [])).
Proof.
  intros Hf Hn Hs Hi Hnc. split.
  - destruct (final_maxima args a b Hnc) as (Ma & Mr & Ha & Hr & _).
    rewrite (status_by_maxima _ _ _ _ _ Hf Hn Hs Hi Ha Hr). eauto.
  - rewrite (main_compared args a b Hf Hn Hs Hi). cbv zeta.
    eexists. split; reflexivity.
Qed.

Lemma stdout_layout_witness :
  (vtu_file default_args /\ numeric sample_a sample_b /\
   shape_compatible sample_a sample_b /\ counter_in_range sample_a /\
   1 <= GetNumberOfComponents sample_a) /\
  exists n,
    final_norms (main default_args (Some (sample_a, sample_b))) = Some n /\
    cout (main default_args (Some (sample_a, sample_b))) =
      announcement default_args
      ++ flat_map (diagnostics_of default_args sample_a sample_b)
           (indices (GetNumberOfTuples sample_a)
                    (GetNumberOfComponents sample_a))
      ++ (if quiet default_args then []
          else report n ++
               (if failed (status (main default_args
                                        (Some (sample_a, sample_b))))
                then [failure_message] else [])).
Proof.
  assert (Hi : counter_in_range sample_a)
    by (unfold counter_in_range, INT_MAX; simpl; lia).
  assert (Hc : 1 <= GetNumberOfComponents sample_a) by (simpl; lia).
  split; [repeat split; assumption|].
  apply (stdout_layout default_args sample_a sample_b eq_refl
           (conj eq_refl eq_refl) (conj eq_refl eq_refl) Hi Hc).
Defined.

(** X16. [main] returns success only after a full comparison: the file name
    ends in [.vtu], both arrays were read and are numeric and of the same
    shape with at least one component, the vectors were computed and
    nothing was written to the error stream. *)
Theorem success_after_comparison (args : Args)
    (read : option (vtkDataArray * vtkDataArray)) :
  status (main args read) = Returned EXIT_SUCCESS ->
  exists a b n,
    read = Some (a, b) /\
    vtu_file args /\ numeric a b /\ shape_compatible a b /\
    1 <= GetNumberOfComponents a /\
    final_norms (main args read) = Some n /\
    cerr (main args read) = [].
Proof.
  intros E.
  destruct (main_cases args read) as [(a & b & -> & Hf & Hn & Hs)|(E' & _)];
    [|congruence].
  destruct (counter_in_range_cases a) as [Hi|Hi];
    [|rewrite (main_overflow args a b Hf Hn Hs Hi) in E; discriminate E].
  rewrite (main_compared args a b Hf Hn Hs Hi) in *. cbv zeta in *.
  cbn [status final_norms cerr] in *.
  exists a, b. eexists. destruct Hn, Hs.
  repeat split; try eassumption; try reflexivity.
  destruct (GetNumberOfComponents a) as [|nc] eqn:Enc; [|lia]. exfalso.
  pose proof (scan_point_sized args a b (GetNumberOfTuples a * 0)) as Hsz.
  unfold sized, vectors in Hsz. rewrite Enc in Hsz.
  apply Forall_cons in Hsz as [_ Hsz]. apply Forall_cons in Hsz as [_ Hsz].
  apply Forall_cons in Hsz as [La _].
  unfold verdict, decide_exit in E.
  rewrite (max_element_empty _ La) in E. discriminate E.
Qed.

Lemma success_after_comparison_witness :
  status (main default_args (Some (sample_a, sample_a))) = Returned EXIT_SUCCESS /\
  exists a b n,
    Some (sample_a, sample_a) = Some (a, b) /\
    vtu_file default_args /\ numeric a b /\ shape_compatible a b /\
    1 <= GetNumberOfComponents a /\
    final_norms (main default_args (Some (sample_a, sample_a))) = Some n /\
    cerr (main default_args (Some (sample_a, sample_a))) = [].
Proof.
  split; [reflexivity|].
  apply (success_after_comparison default_args (Some (sample_a, sample_a))
           eq_refl).
Defined.

(** X17. [main] has no defined result exactly when two numeric arrays of
    equal shape pass the checks and either have no component (the decision
    dereferences an end iterator) or have more than [INT_MAX] tuples (the
    tuple counter overflows); in every other case [main] returns an exit
    code. *)
Theorem undefined_iff (args : Args)
    (read : option (vtkDataArray * vtkDataArray)) :
  status (main args read) = Undefined <->
  exists a b,
    read = Some (a, b) /\
    vtu_file args /\ numeric a b /\ shape_compatible a b /\
    (GetNumberOfComponents a = 0 \/ ~ counter_in_range a).
Proof.
  split.
  - intros E.
    destruct (main_cases args read) as [(a & b & -> & Hf & Hn & Hs)|(E' & _)];
      [|congruence].
    exists a, b. repeat split; try assumption; try apply Hn; try apply Hs.
    destruct (counter_in_range_cases a) as [Hi|Hi]; [left|right; exact Hi].
    destruct (GetNumberOfComponents a) as [|nc] eqn:Enc; [reflexivity|].
    exfalso.
    destruct (final_maxima args a b) as (Ma & Mr & Ha & Hr & _); [lia|].
    rewrite (status_by_maxima _ _ _ _ _ Hf Hn Hs Hi Ha Hr) in E.
    destruct (_ && _); discriminate E.
  - intros (a & b & -> & Hf & Hn & Hs & [Enc|Hi]).
    + destruct (counter_in_range_cases a) as [Hi|Hi];
        [|apply main_overflow; assumption].
      rewrite (main_compared args a b Hf Hn Hs Hi). cbv zeta. cbn [status].
      pose proof (scan_point_sized args a b
                    (GetNumberOfTuples a * GetNumberOfComponents a)) as Hsz.
      unfold sized, vectors in Hsz.
      apply Forall_cons in Hsz as [_ Hsz]. apply Forall_cons in Hsz as [_ Hsz].
      apply Forall_cons in Hsz as [La _]. rewrite Enc in La at 2.
      unfold verdict, decide_exit. rewrite (max_element_empty _ La).
      reflexivity.
    + apply main_overflow; assumption.
Qed.

(** ** Swapping the arrays, in full *)

Lemma min_abs_sym x y :
  signed_as false x -> signed_as false y -> min x y = min y x.
Proof.
  intros Hx Hy. unfold min, ltb, SFltb.
  rewrite (compare_antisym y x).
  destruct (compare_signed _ _ _ _ Hy Hx) as [c Ec]. rewrite Ec.
  destruct c; simpl; try reflexivity.
  destruct (compare_Eq_cases _ _ Ec) as [->|(s1 & s2 & -> & ->)];
    [reflexivity|].
  simpl in Hx, Hy. subst. reflexivity.
Qed.

Lemma absolute_error_nan_l y : absolute_error S754_nan y = S754_nan.
Proof. reflexivity. Qed.

Lemma absolute_error_nan_r x : absolute_error x S754_nan = S754_nan.
Proof. destruct x; reflexivity. Qed.

Lemma relative_error_sym x y : relative_error x y = relative_error y x.
Proof.
  unfold relative_error. rewrite (absolute_error_sym y x), (orb_comm (eqb y zero)).
  destruct (eqb (absolute_error x y) zero); [reflexivity|].
  destruct (eqb x zero || eqb y zero); [reflexivity|].
  destruct x as [sx|sx| |sx mx ex];
    try (rewrite absolute_error_nan_l; reflexivity);
    destruct y as [sy|sy| |sy my ey];
    try (rewrite absolute_error_nan_r; destruct sx; reflexivity);
    f_equal; apply min_abs_sym; reflexivity.
Qed.

Lemma norms_fold_swap args a b l : forall st st',
  norms st = norms st' ->
  norms (fold_left (step args a b) l st)
  = norms (fold_left (step args b a) l st').
Proof.
  induction l as [|tc l IH]; intros st st' E; simpl; [exact E|].
  apply IH. unfold step, loop_body; simpl.
  rewrite E, (absolute_error_sym (GetComponent b tc.1 tc.2)),
    (relative_error_sym (GetComponent b tc.1 tc.2)). reflexivity.
Qed.

(** X18. The return value and all six vectors are the same whether [a] is
    compared with [b] or [b] with [a], for all arrays. *)
Theorem comparison_symmetric (args : Args) (a b : vtkDataArray) :
  status (main args (Some (a, b))) = status (main args (Some (b, a))) /\
  final_norms (main args (Some (a, b))) = final_norms (main args (Some (b, a))).
Proof.
  destruct (stringEndsWith (vtk_input_a args) ".vtu") eqn:Hf;
    [|reject_with Hf].
  destruct (IsNumeric a) eqn:Ea, (IsNumeric b) eqn:Eb;
    try (unfold main; rewrite Ea, Eb; reject_with Hf;
         repeat match goal with
         | |- context [if ?c then _ else _] => destruct c; cbn; auto
         end; fail).
  destruct (Nat.eqb_spec (GetNumberOfTuples a) (GetNumberOfTuples b)) as [Et|Et].
  2:{ unfold main. rewrite Ea, Eb, Hf. cbn [negb].
      rewrite (proj2 (Nat.eqb_neq _ _) Et).
      rewrite (proj2 (Nat.eqb_neq _ _) (not_eq_sym Et)). auto. }
  destruct (Nat.eqb_spec (GetNumberOfComponents a) (GetNumberOfComponents b))
    as [Ec|Ec].
  2:{ unfold main. rewrite Ea, Eb, Hf, Et, Nat.eqb_refl. cbn [negb].
      rewrite (proj2 (Nat.eqb_neq _ _) Ec).
      rewrite (proj2 (Nat.eqb_neq _ _) (not_eq_sym Ec)). auto. }
  destruct (counter_in_range_cases a) as [Hi|Hi].
  - rewrite (main_compared args a b Hf (conj Ea Eb) (conj Et Ec) Hi).
    rewrite (main_compared args b a Hf (conj Eb Ea)
               (conj (eq_sym Et) (eq_sym Ec)) (counter_in_range_same a b Et Hi)).
    cbv zeta. cbn [status final_norms]. unfold scan_point.
    rewrite <- Et, <- Ec.
    rewrite (norms_fold_swap args a b _ _ _ eq_refl). auto.
  - assert (Hi' : ~ counter_in_range b)
      by (intros H; apply Hi, (counter_in_range_same b a (eq_sym Et) H)).
    rewrite (main_overflowed args a b Hf (conj Ea Eb) (conj Et Ec) Hi).
    rewrite (main_overflowed args b a Hf (conj Eb Ea)
               (conj (eq_sym Et) (eq_sym Ec)) Hi').
    cbv zeta. cbn [status final_norms]. unfold scan_point.
    rewrite <- Et, <- Ec.
    rewrite (norms_fold_swap args a b _ _ _ eq_refl). auto.
Qed.

(** ** Values that are NaN *)




(** ** Arrays that are not numeric *)

(** X20. When one of the arrays is not numeric, [main] returns failure before
    it looks at the shapes; the error stream names the type of the first
    array that is not numeric, [a] before [b], and the vectors are never
    created. *)
Theorem not_numeric args a b :
  vtu_file args -> IsNumeric a = false \/ IsNumeric b = false ->
  let run := main args (Some (a, b)) in
  status run = Returned EXIT_FAILURE /\
  final_norms run = None /\
  cout run = announcement args /\
  (IsNumeric a = false /\
   cerr run = [[Str "Data in data array a is not numeric:\n";
                Str "data type is "; Str (GetDataTypeAsString a); Str "\n"]]
   \/
   IsNumeric a = true /\ IsNumeric b = false /\
   cerr run = [[Str "Data in data array b is not numeric.\n";
                Str "data type is "; Str (GetDataTypeAsString b); Str "\n"]]).
Proof.
  intros Hf H. unfold main, vtu_file in *. rewrite Hf. cbn [negb].
  fold (announcement args).
  destruct (IsNumeric a) eqn:Ea; cbn [negb]; [|cbn; auto 10].
  destruct (IsNumeric b) eqn:Eb; cbn [negb]; [|cbn; auto 10].
  destruct H; discriminate.
Qed.

Lemma not_numeric_witness :
  (vtu_file default_args /\ IsNumeric text_array = false) /\
  status (main default_args (Some (text_array, sample_a)))
  = Returned EXIT_FAILURE /\
  final_norms (main default_args (Some (text_array, sample_a))) = None.
Proof.
  split; [split; reflexivity|].
  destruct (not_numeric default_args text_array sample_a eq_refl
              (or_introl eq_refl)) as (H1 & H2 & _).
  split; [exact H1|exact H2].
Defined.
